(** * CUBIC congestion controller of picoquic (src/picoquic/cubic.c)

    A shallow embedding of the controller.

    - The 64-bit unsigned arithmetic is written with its wrap-around;
      conversions to the signed types are two's complement.
    - The single-precision arithmetic of [Beta], [Alpha], [BetaLastMax]
      and of the window updates is IEEE 754 binary32 (the specification
      of the Standard Library at precision 24 and maximal exponent 128),
      every operation rounded to nearest even on its own.
    - A conversion from a float to [uint64_t] that C leaves undefined
      makes the operation return [None].
    - Output to stderr and to the telemetry relay is not modelled. *)

From Stdlib Require Import ZArith Lia Bool List.
From Stdlib Require Import SpecFloat.
Import ListNotations.

Local Open Scope Z_scope.

(** ** Machine integers *)

Module C.

Definition UINT64_MOD : Z := 2 ^ 64.

(** Value of an arithmetic result stored in a [uint64_t]. *)
Definition u64 (z : Z) : Z := z mod UINT64_MOD.

(** Conversion to [int64_t] (two's complement, as compiled). *)
Definition to_int64 (z : Z) : Z := (z + 2 ^ 63) mod 2 ^ 64 - 2 ^ 63.

(** Conversion to [int] (32 bits, two's complement, as compiled). *)
Definition to_int (z : Z) : Z := (z + 2 ^ 31) mod 2 ^ 32 - 2 ^ 31.

(** [int abs(int)] of <stdlib.h>: the argument is converted to [int].
    A build that selects [long abs(long)] for the [int64_t] argument of
    line 224 ([labs] below) computes the same offset as long as the
    difference is below [2^31] in magnitude; every statement on the
    offset below stays in that range. *)
Definition abs (j : Z) : Z := to_int (Z.abs (to_int j)).

(** [long abs(long)], 64 bits. *)
Definition labs (j : Z) : Z := to_int64 (Z.abs (to_int64 j)).

End C.

(** ** Single-precision floats *)

Module F32.

Definition prec : Z := 24.
Definition emax : Z := 128.

Definition float := spec_float.

Definition add : float -> float -> float := SFadd prec emax.
Definition sub : float -> float -> float := SFsub prec emax.
Definition mul : float -> float -> float := SFmul prec emax.
Definition div : float -> float -> float := SFdiv prec emax.

(** Conversion of an integer value to [float] (round to nearest even). *)
Definition of_Z (z : Z) : float := binary_normalize prec emax z 0 false.

(** Integral part of a finite float's magnitude. *)
Definition trunc_mag (m : positive) (e : Z) : Z :=
  match e with
  | Zneg p => Z.pos m / 2 ^ Z.pos p
  | _ => Z.pos m * 2 ^ e
  end.

(** Conversion of a [float] to [uint64_t]: the fractional part is
    discarded; the behaviour is undefined ([None]) when the integral
    part is not a value of the type, and for infinities and NaN. *)
Definition to_u64 (x : float) : option Z :=
  match x with
  | S754_zero _ => Some 0
  | S754_finite false m e =>
      let v := trunc_mag m e in
      if v <? C.UINT64_MOD then Some v else None
  | S754_finite true m e =>
      if trunc_mag m e =? 0 then Some 0 else None
  | S754_infinity _ | S754_nan => None
  end.

End F32.

(** Sequencing of operations that may be undefined. *)
Definition bind {A B : Type} (o : option A) (k : A -> option B) : option B :=
  match o with
  | Some a => k a
  | None => None
  end.

Notation "x <- o ;; k" := (bind o (fun x => k))
  (at level 61, o at next level, right associativity).

(** ** Constants of cubic.c *)

Definition DEFAULT_TCP_MSS : Z := 1460.
Definition MICROSEC_PER_SEC : Z := 1000000.
Definition kCubeScale : Z := 40.
Definition kCubeCongestionWindowScale : Z := 410.

(** [0.7f], bits 0x3F333333. *)
Definition kBeta : F32.float := S754_finite false 11744051 (-24).
(** [0.85f], bits 0x3F59999A. *)
Definition kBetaLastMax : F32.float := S754_finite false 14260634 (-24).

(** The value [picoquic_cubic_init] stores in the static [kCubeFactor]. *)
Definition kCubeFactor_init : Z :=
  C.to_int (C.u64 (Z.shiftl 1 kCubeScale) / kCubeCongestionWindowScale / DEFAULT_TCP_MSS).

(** ** Data model *)

Inductive picoquic_cubic_alg_state_t :=
  | picoquic_cubic_alg_slow_start
  | picoquic_cubic_alg_congestion_avoidance.

Record picoquic_cubic_state_t := mk_cubic_state {
  alg_state : picoquic_cubic_alg_state_t;
  epoch_start_time : Z;
  estimated_nr_cwnd : Z;
  last_max_cwnd : Z;
  time_of_origin : Z;
  origin_cwnd : Z;
  last_target_cwnd : Z
}.

(** The notifications of the transport; the last constructor stands for
    any value outside the five named ones (the [default] branches). *)
Inductive picoquic_congestion_notification_t :=
  | picoquic_congestion_notification_acknowledgement
  | picoquic_congestion_notification_repeat
  | picoquic_congestion_notification_timeout
  | picoquic_congestion_notification_spurious_repeat
  | picoquic_congestion_notification_rtt_measurement
  | picoquic_congestion_notification_other.

Section Cubic.

(** *** What the transport provides (picoquic_internal.h and libm are
    not part of the controller) *)

(** Modelled from the spec: [PICOQUIC_CWIN_INITIAL] is a constant of the
    transport; the controller only stores it in [cwin] at init. *)
Variable PICOQUIC_CWIN_INITIAL : Z.

(** The libm call of the epoch start, with its two conversions:
    [cbrt_u64 x] is [(uint64_t)cbrt((double)x)] for a [uint64_t] [x]. *)
Variable cbrt_u64 : Z -> Z.

(** Modelled from the spec: the pacing data of the path, owned by the
    transport and recomputed from the path by its hook
    [picoquic_update_pacing_data]. *)
Variable pacing_data : Type.

(** The fields of [picoquic_path_t] that the controller uses.
    Modelled from the spec: [total_stream_count] is a 64-bit unsigned
    counter read through a pointer on every use. *)
Record picoquic_path_t := mk_path {
  cwin : Z;
  bytes_in_transit : Z;
  rtt_min : Z;
  total_stream_count : Z;
  congestion_alg_state : option picoquic_cubic_state_t;
  pacing : pacing_data
}.

(** The pacing data that the hook derives from a path. *)
Variable pacing_of : picoquic_path_t -> pacing_data.

Definition picoquic_update_pacing_data (path_x : picoquic_path_t) : picoquic_path_t :=
  mk_path (cwin path_x) (bytes_in_transit path_x) (rtt_min path_x)
          (total_stream_count path_x) (congestion_alg_state path_x)
          (pacing_of path_x).

Definition set_cwin (path_x : picoquic_path_t) (w : Z) : picoquic_path_t :=
  mk_path w (bytes_in_transit path_x) (rtt_min path_x)
          (total_stream_count path_x) (congestion_alg_state path_x)
          (pacing path_x).

Definition set_state (path_x : picoquic_path_t)
           (s : option picoquic_cubic_state_t) : picoquic_path_t :=
  mk_path (cwin path_x) (bytes_in_transit path_x) (rtt_min path_x)
          (total_stream_count path_x) s (pacing path_x).

(** *** picoquic_cubic_init

    [malloc_ok] tells whether the allocation of the controller state
    succeeds.  The first component of the result is the value of the
    static [kCubeFactor] after the call. *)
Definition picoquic_cubic_init (malloc_ok : bool) (path_x : picoquic_path_t)
  : Z * picoquic_path_t :=
  (kCubeFactor_init,
   if malloc_ok then
     set_cwin
       (set_state path_x
          (Some (mk_cubic_state picoquic_cubic_alg_slow_start 0 0 0 0 0 0)))
       PICOQUIC_CWIN_INITIAL
   else set_state path_x None).

(** *** Scaling primitives, on the value read from [total_stream_count] *)

Definition Beta (n : Z) : F32.float :=
  F32.div (F32.add (F32.of_Z (C.u64 (n - 1))) kBeta) (F32.of_Z n).

Definition Alpha (n : Z) : F32.float :=
  let beta := Beta n in
  F32.div
    (F32.mul (F32.of_Z (C.u64 (C.u64 (3 * n) * n)))
             (F32.sub (F32.of_Z 1) beta))
    (F32.sub (F32.of_Z 1) beta).

Definition BetaLastMax (n : Z) : F32.float :=
  F32.div (F32.add (F32.of_Z (C.u64 (n - 1))) kBetaLastMax) (F32.of_Z n).

(** *** picoquic_cubic_process_ack, step by step *)

Definition with_epoch_start_time (s : picoquic_cubic_state_t) (t : Z) :=
  mk_cubic_state (alg_state s) t (estimated_nr_cwnd s) (last_max_cwnd s)
                 (time_of_origin s) (origin_cwnd s) (last_target_cwnd s).

(** Lines 195-215: start of a new epoch when none is running. *)
Definition start_epoch (kCubeFactor : Z) (path_x : picoquic_path_t)
           (s : picoquic_cubic_state_t) (current_time : Z)
  : picoquic_cubic_state_t :=
  if epoch_start_time s =? 0 then
    if last_max_cwnd s <=? cwin path_x then
      mk_cubic_state (alg_state s) (C.u64 (current_time - rtt_min path_x))
                     (cwin path_x) (last_max_cwnd s)
                     0 (cwin path_x) (last_target_cwnd s)
    else
      mk_cubic_state (alg_state s) (C.u64 (current_time - rtt_min path_x))
                     (cwin path_x) (last_max_cwnd s)
                     (cbrt_u64 (C.u64 (kCubeFactor * C.u64 (last_max_cwnd s - cwin path_x))))
                     (last_max_cwnd s) (last_target_cwnd s)
  else s.

(** Line 220.  The shift count is the integer quotient
    [10 / MICROSEC_PER_SEC]: in C the division binds tighter than the
    shift. *)
Definition elapsed_time (current_time epoch_start : Z) : Z :=
  C.to_int64
    (C.u64 (Z.shiftl (C.u64 (current_time - epoch_start)) (10 / MICROSEC_PER_SEC))).

(** Line 224. *)
Definition cubic_offset (time_of_origin_ elapsed : Z) : Z :=
  C.u64 (C.abs (C.to_int64 (C.to_int64 time_of_origin_ - elapsed))).

(** Line 227. *)
Definition delta_congestion_window (offset : Z) : Z :=
  Z.shiftr
    (C.u64 (C.u64 (C.u64 (C.u64 (kCubeCongestionWindowScale * offset) * offset) * offset)
            * DEFAULT_TCP_MSS))
    kCubeScale.

(** Lines 230-232: the target window before the growth limit. *)
Definition cubic_target (s : picoquic_cubic_state_t) (elapsed : Z) : Z :=
  let delta := delta_congestion_window (cubic_offset (time_of_origin s) elapsed) in
  if time_of_origin s <? C.u64 elapsed
  then C.u64 (origin_cwnd s + delta)
  else C.u64 (origin_cwnd s - delta).

(** Lines 236-239. *)
Definition growth_limit (path_x : picoquic_path_t) (nb_bytes_acknowledged target : Z) : Z :=
  let lim := C.u64 (cwin path_x + nb_bytes_acknowledged / 2) in
  if lim <? target then lim else target.

(** Line 249: the compound assignment converts [estimated_nr_cwnd] to
    [float], adds, and converts the sum back. *)
Definition nr_update (n nb_bytes_acknowledged est : Z) : option Z :=
  F32.to_u64
    (F32.add (F32.of_Z est)
       (F32.div
          (F32.mul (F32.of_Z nb_bytes_acknowledged)
                   (F32.mul (Alpha n) (F32.of_Z DEFAULT_TCP_MSS)))
          (F32.of_Z est))).

Definition picoquic_cubic_process_ack (kCubeFactor : Z) (path_x : picoquic_path_t)
           (current_time nb_bytes_acknowledged : Z) : option picoquic_path_t :=
  match congestion_alg_state path_x with
  | None => Some path_x
  | Some cu_state =>
      if bytes_in_transit path_x <? cwin path_x then
        Some (set_state path_x (Some (with_epoch_start_time cu_state 0)))
      else
        let s1 := start_epoch kCubeFactor path_x cu_state current_time in
        let elapsed := elapsed_time current_time (epoch_start_time s1) in
        let target := growth_limit path_x nb_bytes_acknowledged (cubic_target s1 elapsed) in
        est <- nr_update (total_stream_count path_x) nb_bytes_acknowledged
                         (estimated_nr_cwnd s1) ;;
        let s2 := mk_cubic_state (alg_state s1) (epoch_start_time s1) est
                                 (last_max_cwnd s1) (time_of_origin s1)
                                 (origin_cwnd s1) target in
        Some (set_cwin (set_state path_x (Some s2))
                       (if target <? est then est else target))
  end.

(** *** picoquic_cubic_process_loss *)

Definition picoquic_cubic_process_loss (path_x : picoquic_path_t)
  : option picoquic_path_t :=
  match congestion_alg_state path_x with
  | None => Some path_x
  | Some cu_state =>
      let n := total_stream_count path_x in
      last_max <-
        (if C.u64 (cwin path_x + DEFAULT_TCP_MSS) <? last_max_cwnd cu_state
         then F32.to_u64 (F32.mul (BetaLastMax n) (F32.of_Z (cwin path_x)))
         else Some (cwin path_x)) ;;
      w <- F32.to_u64 (F32.mul (F32.of_Z (cwin path_x)) (Beta n)) ;;
      Some (set_cwin
              (set_state path_x
                 (Some (mk_cubic_state (alg_state cu_state) 0
                          (estimated_nr_cwnd cu_state) last_max
                          (time_of_origin cu_state) (origin_cwnd cu_state)
                          (last_target_cwnd cu_state))))
              w)
  end.

(** *** picoquic_cubic_notify *)

Definition with_alg_state (s : picoquic_cubic_state_t) (a : picoquic_cubic_alg_state_t) :=
  mk_cubic_state a (epoch_start_time s) (estimated_nr_cwnd s) (last_max_cwnd s)
                 (time_of_origin s) (origin_cwnd s) (last_target_cwnd s).

Definition picoquic_cubic_notify (kCubeFactor : Z) (path_x : picoquic_path_t)
           (notification : picoquic_congestion_notification_t)
           (rtt_measurement nb_bytes_acknowledged lost_packet_number current_time : Z)
  : option picoquic_path_t :=
  match congestion_alg_state path_x with
  | None => Some path_x
  | Some cu_state =>
      path' <-
        match alg_state cu_state with
        | picoquic_cubic_alg_slow_start =>
            match notification with
            | picoquic_congestion_notification_acknowledgement =>
                Some (set_cwin path_x (C.u64 (cwin path_x + nb_bytes_acknowledged)))
            | picoquic_congestion_notification_repeat
            | picoquic_congestion_notification_timeout =>
                picoquic_cubic_process_loss
                  (set_state path_x
                     (Some (with_alg_state cu_state picoquic_cubic_alg_congestion_avoidance)))
            | _ => Some path_x
            end
        | picoquic_cubic_alg_congestion_avoidance =>
            match notification with
            | picoquic_congestion_notification_acknowledgement =>
                picoquic_cubic_process_ack kCubeFactor path_x current_time
                                           nb_bytes_acknowledged
            | picoquic_congestion_notification_repeat
            | picoquic_congestion_notification_timeout =>
                picoquic_cubic_process_loss path_x
            | _ => Some path_x
            end
        end ;;
      Some (picoquic_update_pacing_data path')
  end.

(** *** picoquic_cubic_delete *)

Definition picoquic_cubic_delete (path_x : picoquic_path_t) : picoquic_path_t :=
  match congestion_alg_state path_x with
  | Some _ => set_state path_x None
  | None => path_x
  end.

(** *** Delivery of events by the transport

    Before each notification the transport has left its own values in
    the fields of the path that the controller only reads. *)

Record cc_event := mk_event {
  ev_bytes_in_transit : Z;
  ev_rtt_min : Z;
  ev_total_stream_count : Z;
  ev_notification : picoquic_congestion_notification_t;
  ev_rtt_measurement : Z;
  ev_nb_bytes_acknowledged : Z;
  ev_lost_packet_number : Z;
  ev_current_time : Z
}.

Definition transport_view (path_x : picoquic_path_t) (ev : cc_event) : picoquic_path_t :=
  mk_path (cwin path_x) (ev_bytes_in_transit ev) (ev_rtt_min ev)
          (ev_total_stream_count ev) (congestion_alg_state path_x)
          (pacing path_x).

Definition deliver (kCubeFactor : Z) (path_x : picoquic_path_t) (ev : cc_event)
  : option picoquic_path_t :=
  picoquic_cubic_notify kCubeFactor (transport_view path_x ev)
    (ev_notification ev) (ev_rtt_measurement ev) (ev_nb_bytes_acknowledged ev)
    (ev_lost_packet_number ev) (ev_current_time ev).

Fixpoint deliver_all (kCubeFactor : Z) (path_x : picoquic_path_t)
         (evs : list cc_event) : option picoquic_path_t :=
  match evs with
  | [] => Some path_x
  | ev :: evs' =>
      path' <- deliver kCubeFactor path_x ev ;;
      deliver_all kCubeFactor path' evs'
  end.

End Cubic.

Arguments mk_path {pacing_data}.
Arguments cwin {pacing_data}.
Arguments bytes_in_transit {pacing_data}.
Arguments rtt_min {pacing_data}.
Arguments total_stream_count {pacing_data}.
Arguments congestion_alg_state {pacing_data}.
Arguments pacing {pacing_data}.
Arguments set_cwin {pacing_data}.
Arguments set_state {pacing_data}.
Arguments picoquic_update_pacing_data {pacing_data}.
Arguments picoquic_cubic_init PICOQUIC_CWIN_INITIAL {pacing_data}.
Arguments start_epoch cbrt_u64 {pacing_data}.
Arguments growth_limit {pacing_data}.
Arguments picoquic_cubic_process_ack cbrt_u64 {pacing_data}.
Arguments picoquic_cubic_process_loss {pacing_data}.
Arguments picoquic_cubic_notify cbrt_u64 {pacing_data}.
Arguments picoquic_cubic_delete {pacing_data}.
Arguments transport_view {pacing_data}.
Arguments deliver cbrt_u64 {pacing_data}.
Arguments deliver_all cbrt_u64 {pacing_data}.

(** ** Reference definitions *)

(** Integer cube root (largest [r] with [r ^ 3 <= x]) for [x] below
    [2 ^ 66], built bit by bit from bit [i] down. *)
Fixpoint icbrt_bits (i : nat) (r x : Z) : Z :=
  let r' := if (r + 2 ^ Z.of_nat i) ^ 3 <=? x then r + 2 ^ Z.of_nat i else r in
  match i with
  | O => r'
  | S j => icbrt_bits j r' x
  end.

(** A cube root for the runs on concrete values: the integer cube
    root.  The truncated [cbrt] of libm can differ from it by one next
    to a perfect cube (below it when the computed root falls short of
    an integer, above it when the conversion to [double] or the
    computed root reaches the next integer).  The runs below call it on
    8463997440 only, where the real root is 2037.94 and both give
    2037. *)
Definition icbrt (x : Z) : Z := icbrt_bits 21 0 x.

(** Modelled from the spec: [MIN_CWND] is the transport's initial window. *)
Definition MIN_CWND (PICOQUIC_CWIN_INITIAL : Z) : Z := PICOQUIC_CWIN_INITIAL.

(** The elapsed time in the words of the spec: the difference is shifted
    left by 10, then divided by [MICROSEC_PER_SEC]. *)
Definition elapsed_time_spec (now epoch_start : Z) : Z :=
  Z.shiftl (now - epoch_start) 10 / MICROSEC_PER_SEC.

(** [Alpha] in the words of the spec: [3·n·n·(1 − Beta(n)) / (1 + Beta(n))]. *)
Definition Alpha_spec (n : Z) : F32.float :=
  let beta := Beta n in
  F32.div
    (F32.mul (F32.of_Z (3 * n * n)) (F32.sub (F32.of_Z 1) beta))
    (F32.add (F32.of_Z 1) beta).

(** ** Vocabulary of the statements *)

Definition is_loss (notification : picoquic_congestion_notification_t) : bool :=
  match notification with
  | picoquic_congestion_notification_repeat
  | picoquic_congestion_notification_timeout => true
  | _ => false
  end.

(** Bytes that an event adds to the window in slow start. *)
Definition acked_bytes (ev : cc_event) : Z :=
  match ev_notification ev with
  | picoquic_congestion_notification_acknowledgement => ev_nb_bytes_acknowledged ev
  | _ => 0
  end.

Fixpoint total_acked (evs : list cc_event) : Z :=
  match evs with
  | [] => 0
  | ev :: evs' => acked_bytes ev + total_acked evs'
  end.

(** An event that is no loss signal and carries a [uint64_t] count. *)
Definition quiet_event (ev : cc_event) : Prop :=
  is_loss (ev_notification ev) = false /\ 0 <= ev_nb_bytes_acknowledged ev.

(** [has_sign s x]: the float [x] is NaN or carries the sign bit [s]. *)
Definition has_sign (s : bool) (x : F32.float) : Prop :=
  match x with
  | S754_nan => True
  | S754_zero s' | S754_infinity s' | S754_finite s' _ _ => s' = s
  end.

(** Line 224 with [long abs(long)]. *)
Definition cubic_offset_long (time_of_origin_ elapsed : Z) : Z :=
  C.u64 (C.labs (C.to_int64 (C.to_int64 time_of_origin_ - elapsed))).


(** [root_within t x]: [t] is not negative and its cube exceeds [x] by
    at most [x / 2^24].  This is what the statements below ask of the
    truncated [cbrt] of libm.  The conversion of the argument to
    [double] and the root are each accurate to a few units of [2^-53],
    relatively, which moves the cube by far less than a relative
    [2^-24]; and below [2^24], where the margin is 0, the real root of
    an argument that is no cube is much further from the next integer
    than that. *)
Definition root_within (t x : Z) : Prop :=
  0 <= t /\ t ^ 3 <= x + x / 2 ^ 24.



(** A backoff factor [m · 2^-24] with [1/2 <= m · 2^-24 <= 1 − 2^-22]. *)
Definition backoff_ok (b : F32.float) : bool :=
  match b with
  | S754_finite false m (Zneg 24) => (2 ^ 23 <=? Z.pos m) && (Z.pos m <=? 2 ^ 24 - 4)
  | _ => false
  end.

(** Both backoff factors are in that range for the [fuel] stream counts
    from [n] on. *)
Fixpoint backoffs_ok_from (fuel : nat) (n : Z) : bool :=
  match fuel with
  | O => true
  | S j => backoff_ok (Beta n) && backoff_ok (BetaLastMax n)
           && backoffs_ok_from j (n + 1)
  end.

(** Largest stream count for which the range of the backoff factors is
    established below. *)
Definition MAX_CHECKED_STREAMS : Z := 16384.

(** ** Concrete paths, states and events *)

(** A path as the transport hands it to [picoquic_cubic_init], with no
    pacing data modelled, and one stream. *)
Definition fresh_path : picoquic_path_t unit :=
  mk_path 0 0 0 1 None tt.

Definition no_pacing (p : picoquic_path_t unit) : unit := tt.

(** The path after a successful init with an initial window of 15360
    bytes (ten packets of 1536 bytes). *)
Definition started_path : picoquic_path_t unit :=
  snd (picoquic_cubic_init 15360 true fresh_path).

Definition ack_event (bytes_in_transit_ rtt_min_ streams nb now : Z) : cc_event :=
  mk_event bytes_in_transit_ rtt_min_ streams
           picoquic_congestion_notification_acknowledgement 0 nb 0 now.

Definition timeout_event (streams now : Z) : cc_event :=
  mk_event 0 0 streams picoquic_congestion_notification_timeout 0 0 0 now.

Definition run (evs : list cc_event) : option (picoquic_path_t unit) :=
  deliver_all icbrt no_pacing kCubeFactor_init started_path evs.

Definition avoidance_state : picoquic_cubic_state_t :=
  mk_cubic_state picoquic_cubic_alg_congestion_avoidance
                 1000000 18000 25000 2037 25000 19000.

Definition limited_path : picoquic_path_t unit :=
  mk_path 20000 10000 30000 1 (Some avoidance_state) tt.

Definition no_stream_path : picoquic_path_t unit :=
  mk_path 20000 20000 30000 0 (Some avoidance_state) tt.

Definition busy_path : picoquic_path_t unit :=
  mk_path 20000 20000 30000 1 (Some avoidance_state) tt.

(** The acknowledgement of 3000 bytes that starts the first epoch after
    the timeout of [started_path], and the next one, 10 µs later. *)
Definition first_ack : cc_event := ack_event 10752 0 1 3000 1000000.
Definition second_ack : cc_event := ack_event 11974 0 1 3000 1000010.

(** The path between those two acknowledgements. *)
Definition epoch_state : picoquic_cubic_state_t :=
  mk_cubic_state picoquic_cubic_alg_congestion_avoidance
                 1000000 11974 15360 2037 15360 10759.

Definition epoch_path : picoquic_path_t unit :=
  mk_path 11974 10752 0 1 (Some epoch_state) tt.

(** An acknowledgement of 12000 bytes on a path with a minimal RTT of
    20 ms, which starts an epoch, and an empty one 21.538 ms later. *)
Definition growing_ack : cc_event := ack_event 10752 20000 1 12000 1000000.
Definition late_ack : cc_event := ack_event 16752 20000 1 0 1021538.

(** An acknowledgement whose growth limit leaves a window of [2^24 + 3]
    bytes. *)
Definition odd_ack : cc_event := ack_event 10752 33387 1 33532934 1000000.

(** [busy_path] after an acknowledgement of 3000 bytes at time 1003000. *)
Definition busy_path_after_ack : picoquic_path_t unit :=
  mk_path 21500 20000 30000 1
          (Some (mk_cubic_state picoquic_cubic_alg_congestion_avoidance
                                1000000 18730 25000 2037 25000 21500))
          tt.

(** Notifications that [picoquic_cubic_notify] leaves to its default
    branch. *)
Definition is_ignored (notification : picoquic_congestion_notification_t) : bool :=
  match notification with
  | picoquic_congestion_notification_spurious_repeat
  | picoquic_congestion_notification_rtt_measurement
  | picoquic_congestion_notification_other => true
  | _ => false
  end.

(** The state that [picoquic_cubic_init] leaves. *)
Definition slow_start_state : picoquic_cubic_state_t :=
  mk_cubic_state picoquic_cubic_alg_slow_start 0 0 0 0 0 0.

(** [started_path] after a Timeout, as the transport presents it with
    [growing_ack], and after that acknowledgement. *)
Definition backoff_state : picoquic_cubic_state_t :=
  mk_cubic_state picoquic_cubic_alg_congestion_avoidance 0 0 15360 0 0 0.

Definition backoff_path : picoquic_path_t unit :=
  mk_path 10752 10752 20000 1 (Some backoff_state) tt.

Definition backoff_path_after_ack : picoquic_path_t unit :=
  mk_path 16752 10752 20000 1
          (Some (mk_cubic_state picoquic_cubic_alg_congestion_avoidance
                                980000 15640 15360 2037 15360 16752))
          tt.

(** [epoch_path] after [second_ack] and a Timeout. *)
Definition epoch_path_after_loss : picoquic_path_t unit :=
  mk_path 9149 0 0 1
          (Some (mk_cubic_state picoquic_cubic_alg_congestion_avoidance
                                0 13071 11110 2037 15360 10826))
          tt.


(** A round-trip measurement, which the controller ignores. *)
Definition rtt_event : cc_event :=
  mk_event 20000 30000 1 picoquic_congestion_notification_rtt_measurement
           31000 0 0 1004000.

From Stdlib Require String.

(** ** Test driver (src/picoquic_t/picoquic_t.c)

    The driver is modelled on what [getopt] hands to it: the sequence of
    options that the option loop would see, and the arguments left
    after them.  The test functions and [atoi] are parameters; what is
    printed is not modelled.  The effects that are kept are the sequence
    of tests executed, the value left in [picoquic_stress_test_duration]
    and the way the process ends. *)

Module Driver.

Import String.

(** The [test_name] column of [test_table] (lines 36-116). *)
Definition test_names : list string :=
  [
    "picohash"; "cnxcreation"; "parseheader"; "pn2pn64"; "intformat";
    "fnv1a"; "float16"; "varint"; "skip_frames"; "StreamZeroFrame"; "sack";
    "sendack"; "ackrange"; "ack_of_ack"; "sim_link"; "logger"; "tls_api";
    "silence_test"; "tls_api_version_negotiation"; "first_loss";
    "second_loss"; "SH_loss"; "client_losses"; "server_losses";
    "transport_param_stream_id"; "transport_param"; "tls_api_sni";
    "tls_api_alpn"; "tls_api_wrong_alpn"; "tls_api_oneway_stream";
    "tls_api_q_and_r_stream"; "tls_api_q2_and_r2_stream";
    "tls_api_server_reset"; "tls_api_bad_server_reset";
    "tls_api_very_long_stream"; "tls_api_very_long_max";
    "tls_api_very_long_with_err"; "tls_api_very_long_congestion";
    "http0dot9"; "hrr"; "two_connections"; "clear_text_aead";
    "multiple_versions"; "ping_pong"; "keep_alive"; "sockets";
    "ticket_store"; "session_resume"; "zero_rtt"; "stop_sending"; "unidir";
    "mtu_discovery"; "spurious_retransmit"; "wrong_keyshare"; "pn_ctr";
    "cleartext_pn_enc"; "pn_enc_1rtt"; "tls_zero_share";
    "cleartext_aead_vector"; "transport_param_log"; "bad_certificate";
    "set_verify_certificate_callback_test"; "virtual_time";
    "different_params"; "wrong_tls_version"; "set_certificate_and_key";
    "request_client_authentication"; "bad_client_certificate";
    "nat_rebinding"; "nat_rebinding_loss"; "spin_bit"; "client_error";
    "packet_enc_dec"; "pn_vector"; "zero_rtt_spurious"; "zero_rtt_retry";
    "parse_frames"; "stress"; "splay"
  ]%string.

Definition nb_tests : nat := List.length test_names.

Definition test_name (i : nat) : string := nth i test_names EmptyString.

(** The name that line 235 compares with. *)
Definition stress_name : string := "stress".

(** [usage] prints the help text and returns -1 (lines 145-166). *)
Definition usage : Z := -1.

(** Lines 168-179.  The scan does not stop at the first match. *)
Fixpoint get_test_number_from (names : list string) (i : nat) (test_number : Z)
         (name : string) : Z :=
  match names with
  | [] => test_number
  | n :: names' =>
      get_test_number_from names' (S i)
        (if String.eqb name n then Z.of_nat i else test_number) name
  end.

Definition get_test_number (name : string) : Z :=
  get_test_number_from test_names 0 (-1) name.

(** What [getopt(argc, argv, "s:x:h")] returns, with [optarg]. *)
Inductive getopt_result :=
| opt_x (optarg : string)
| opt_s (optarg : string)
| opt_h
| opt_other.

(** The locals of [main] that the option loop sets. *)
Record options := mk_options {
  opt_ret : Z;
  stress_minutes : Z;
  found_exclusion : Z;
  is_excluded : list Z
}.

(** The locals of [main] that the test loops set, with the sequence of
    the tests executed. *)
Record tally := mk_tally {
  ret : Z;
  nb_test_tried : Z;
  nb_test_failed : Z;
  executed : list nat
}.

(** How the process ends: [exit] from the option loop, or the return
    of [main]. *)
Inductive outcome :=
| process_exit (status : Z)
| main_return (value : Z).

(** [stress_test_duration] is the value assigned to
    [picoquic_stress_test_duration], a 64-bit counter of microseconds
    declared with the tests, which holds the product for every [int]
    number of minutes; [None] when [main] does not assign it. *)
Record execution := mk_execution {
  result : outcome;
  tests_executed : list nat;
  stress_test_duration : option Z
}.

(** [a[i] = v] on an array held as a list. *)
Fixpoint array_set (a : list Z) (i : nat) (v : Z) : list Z :=
  match a, i with
  | [], _ => []
  | _ :: a', O => v :: a'
  | x :: a', S i' => x :: array_set a' i' v
  end.

Section Tests.

(** [test_fn i] is what [test_table[i].test_fn()] returns. *)
Variable test_fn : nat -> Z.
Variable atoi : string -> Z.

(** Lines 120-143. *)
Definition do_one_test (i : nat) (done : list nat) : Z * list nat :=
  if (nb_tests <=? i)%nat then (-1, done)
  else (test_fn i, done ++ [i]).

(** Lines 200-230: the option loop.  [None] is the [exit(0)] of [-h]. *)
Fixpoint scan_options (opts : list getopt_result) (o : options) : option options :=
  match opts with
  | [] => Some o
  | opt :: opts' =>
      if opt_ret o =? 0 then
        match opt with
        | opt_x optarg =>
            let test_number := get_test_number optarg in
            if test_number <? 0 then
              scan_options opts'
                (mk_options usage (stress_minutes o) (found_exclusion o) (is_excluded o))
            else
              scan_options opts'
                (mk_options (opt_ret o) (stress_minutes o) 1
                            (array_set (is_excluded o) (Z.to_nat test_number) 1))
        | opt_s optarg =>
            let minutes := atoi optarg in
            scan_options opts'
              (mk_options (if minutes <=? 0 then usage else opt_ret o) minutes
                          (found_exclusion o) (is_excluded o))
        | opt_h => None
        | opt_other =>
            scan_options opts'
              (mk_options usage (stress_minutes o) (found_exclusion o) (is_excluded o))
        end
      else Some o
  end.

(** Lines 234-238. *)
Definition exclude_all_but_stress (excluded : list Z) : list Z :=
  fold_left
    (fun a i => if String.eqb (test_name i) stress_name then a else array_set a i 1)
    (seq 0 nb_tests) excluded.

(** Lines 249-253 and 268-272: one test, counted. *)
Definition try_test (i : nat) (t : tally) : tally :=
  let r := do_one_test i (executed t) in
  mk_tally (if fst r =? 0 then ret t else -1)
           (nb_test_tried t + 1)
           (if fst r =? 0 then nb_test_failed t else nb_test_failed t + 1)
           (snd r).

(** Lines 247-258. *)
Definition run_all (excluded : list Z) (t : tally) : tally :=
  fold_left
    (fun t i => if nth i excluded 0 =? 0 then try_test i t else t)
    (seq 0 nb_tests) t.

(** Lines 260-275: the loop leaves at the first valid name. *)
Fixpoint run_named (names : list string) (t : tally) : tally :=
  match names with
  | [] => t
  | name :: names' =>
      let test_number := get_test_number name in
      if test_number <? 0 then
        run_named names'
          (mk_tally usage (nb_test_tried t) (nb_test_failed t) (executed t))
      else try_test (Z.to_nat test_number) t
  end.

(** Lines 181-287.  [names] are the arguments from [optind] on. *)
Definition main (malloc_ok : bool) (opts : list getopt_result) (names : list string)
  : execution :=
  if malloc_ok then
    match scan_options opts (mk_options 0 0 0 (repeat 0 nb_tests)) with
    | None => mk_execution (process_exit 0) [] None
    | Some o =>
        let stress_only :=
          (opt_ret o =? 0) && (0 <? stress_minutes o)
          && match names with [] => true | _ => false end
          && (found_exclusion o =? 0) in
        let excluded :=
          if stress_only then exclude_all_but_stress (is_excluded o)
          else is_excluded o in
        let duration :=
          if stress_only then Some (stress_minutes o * 60000000) else None in
        let t0 := mk_tally (opt_ret o) 0 0 [] in
        let t :=
          if opt_ret o =? 0 then
            match names with
            | [] => run_all excluded t0
            | _ => run_named names t0
            end
          else t0 in
        mk_execution (main_return (ret t)) (executed t) duration
    end
  else mk_execution (main_return (-1)) [] None.

End Tests.

(** ** Sample command lines *)

Definition splay_name : string := "splay".
Definition unknown_names : list string := ["no_such_test"]%string.
Definition exclusion_options : list getopt_result := [opt_x "splay"; opt_s "5"].
Definition stress_options : list getopt_result := [opt_s "2"; opt_s "5"].

(** An [atoi] that reads a text of one decimal digit. *)
Definition digit_atoi (s : string) : Z :=
  match s with
  | String c EmptyString =>
      let n := Z.of_N (Ascii.N_of_ascii c) - 48 in
      if (0 <=? n) && (n <=? 9) then n else 0
  | _ => 0
  end.

(** Tests that all succeed. *)
Definition passing (i : nat) : Z := 0.

End Driver.

(** ** Vocabulary of the statements on the driver *)

(** No name occurs twice. *)
Fixpoint distinct (l : list String.string) : bool :=
  match l with
  | [] => true
  | x :: l' => negb (existsb (String.eqb x) l') && distinct l'
  end.

(** The names given with [-x], in order. *)
Fixpoint excluded_names (opts : list Driver.getopt_result) : list String.string :=
  match opts with
  | [] => []
  | Driver.opt_x optarg :: opts' => optarg :: excluded_names opts'
  | _ :: opts' => excluded_names opts'
  end.

(** The value of [stress_minutes] after the options, from [minutes]. *)
Fixpoint minutes_after (atoi : String.string -> Z) (opts : list Driver.getopt_result)
         (minutes : Z) : Z :=
  match opts with
  | [] => minutes
  | Driver.opt_s optarg :: opts' => minutes_after atoi opts' (atoi optarg)
  | _ :: opts' => minutes_after atoi opts' minutes
  end.

(** An option that the loop accepts: [-x] with a name of the table, or
    [-s] with a text that [atoi] reads as a positive number. *)
Definition accepted (atoi : String.string -> Z) (opt : Driver.getopt_result) : bool :=
  match opt with
  | Driver.opt_x optarg => 0 <=? Driver.get_test_number optarg
  | Driver.opt_s optarg => 0 <? atoi optarg
  | _ => false
  end.

(** The tests that no [-x] names. *)
Definition not_excluded (xs : list String.string) : list nat :=
  filter (fun i => negb (existsb (String.eqb (Driver.test_name i)) xs))
         (seq 0 Driver.nb_tests).

Definition all_pass (test_fn : nat -> Z) (l : list nat) : bool :=
  forallb (fun i => test_fn i =? 0) l.

(** ** Properties *)

(** *** Machine arithmetic *)

Lemma u64_range z : 0 <= C.u64 z < C.UINT64_MOD.
Proof. unfold C.u64, C.UINT64_MOD. apply Z.mod_pos_bound. lia. Qed.

Lemma u64_small z : 0 <= z < C.UINT64_MOD -> C.u64 z = z.
Proof. intros H. unfold C.u64. apply Z.mod_small. exact H. Qed.

Lemma u64_idem z : C.u64 (C.u64 z) = C.u64 z.
Proof. apply u64_small. apply u64_range. Qed.

Lemma delta_congestion_window_range offset :
  0 <= delta_congestion_window offset < 2 ^ 24.
Proof.
  unfold delta_congestion_window, kCubeScale.
  set (x := C.u64 _).
  assert (Hx : 0 <= x < 2 ^ 64) by (apply u64_range).
  rewrite Z.shiftr_div_pow2 by lia.
  split.
  - apply Z.div_pos; lia.
  - apply Z.div_lt_upper_bound; [lia|].
    change (2 ^ 40 * 2 ^ 24) with (2 ^ 64). lia.
Qed.

(** *** Rounding to single precision

    The mantissa of a rounded value is the truncated mantissa or its
    successor; the lemmas below follow the shifts of [binary_round_aux]
    for values in the normal range. *)

Lemma pow2_split (a b : Z) : 0 <= a -> 0 <= b -> 2 ^ (a + b) = 2 ^ a * 2 ^ b.
Proof. intros. apply Z.pow_add_r; assumption. Qed.

Lemma digits2_log2 (p : positive) : Z.pos (digits2_pos p) = Z.log2 (Z.pos p) + 1.
Proof.
  induction p as [p IH|p IH|]; simpl digits2_pos; try reflexivity.
  - rewrite Pos2Z.inj_succ, IH.
    change (Z.pos p~1) with (2 * Z.pos p + 1).
    rewrite Z.log2_succ_double by lia. lia.
  - rewrite Pos2Z.inj_succ, IH.
    change (Z.pos p~0) with (2 * Z.pos p).
    rewrite Z.log2_double by lia. lia.
Qed.

Lemma digits2_bounds (p : positive) :
  2 ^ (Z.pos (digits2_pos p) - 1) <= Z.pos p < 2 ^ Z.pos (digits2_pos p).
Proof.
  rewrite digits2_log2.
  replace (Z.log2 (Z.pos p) + 1 - 1) with (Z.log2 (Z.pos p)) by lia.
  replace (Z.log2 (Z.pos p) + 1) with (Z.succ (Z.log2 (Z.pos p))) by lia.
  apply Z.log2_spec. lia.
Qed.

Lemma digits2_unique (p : positive) (d : Z) :
  2 ^ (d - 1) <= Z.pos p < 2 ^ d -> Z.pos (digits2_pos p) = d.
Proof.
  intros H. rewrite digits2_log2.
  assert (0 <= d - 1).
  { destruct (Z.le_gt_cases 0 (d - 1)) as [|Hneg]; [assumption|].
    assert (d <= 0) by lia.
    assert (2 ^ d <= 1).
    { destruct (Z.eq_dec d 0) as [->|]; [simpl; lia|].
      rewrite Z.pow_neg_r by lia. lia. }
    lia. }
  assert (Z.log2 (Z.pos p) = d - 1); [|lia].
  apply Z.log2_unique; [lia|].
  replace (Z.succ (d - 1)) with d by lia. exact H.
Qed.

Lemma shr_1_m (r : shr_record) : 0 <= shr_m r -> shr_m (shr_1 r) = shr_m r / 2.
Proof.
  destruct r as [m rb sb]. simpl. intros Hm.
  destruct m as [|p|p]; [reflexivity| |lia].
  destruct p as [p|p|]; simpl.
  - change (Z.pos p~1) with (2 * Z.pos p + 1).
    apply (Z.div_unique _ _ _ 1); lia.
  - change (Z.pos p~0) with (2 * Z.pos p).
    apply (Z.div_unique _ _ _ 0); lia.
  - reflexivity.
Qed.

Lemma iter_pos_shr_m (k : positive) :
  forall r, 0 <= shr_m r -> shr_m (iter_pos shr_1 k r) = shr_m r / 2 ^ Z.pos k.
Proof.
  induction k as [k IH|k IH|]; intros r Hr; simpl iter_pos.
  - assert (H1 : 0 <= shr_m (shr_1 r)) by (rewrite shr_1_m by lia; apply Z.div_pos; lia).
    assert (H2 : 0 <= shr_m (iter_pos shr_1 k (shr_1 r)))
      by (rewrite IH by lia; apply Z.div_pos; lia).
    rewrite IH, IH, shr_1_m by lia.
    rewrite !Z.div_div by lia.
    f_equal. replace (Z.pos k~1) with (1 + (Z.pos k + Z.pos k)) by lia.
    rewrite !Z.pow_add_r by lia. simpl (2 ^ 1). lia.
  - assert (H2 : 0 <= shr_m (iter_pos shr_1 k r))
      by (rewrite IH by lia; apply Z.div_pos; lia).
    rewrite IH, IH by lia.
    rewrite !Z.div_div by lia.
    f_equal. replace (Z.pos k~0) with (Z.pos k + Z.pos k) by lia.
    rewrite !Z.pow_add_r by lia. lia.
  - rewrite shr_1_m by lia. reflexivity.
Qed.

Lemma shr_m_shr (r : shr_record) (e n : Z) :
  0 <= shr_m r -> 0 <= n ->
  shr_m (fst (shr r e n)) = shr_m r / 2 ^ n /\ snd (shr r e n) = e + n.
Proof.
  intros Hr Hn. destruct n as [|p|p]; simpl.
  - rewrite Z.div_1_r. split; [reflexivity|lia].
  - split; [apply iter_pos_shr_m; exact Hr|reflexivity].
  - lia.
Qed.

Lemma shr_m_of_loc (m : Z) (l : location) : shr_m (shr_record_of_loc m l) = m.
Proof. destruct l as [|[| |]]; reflexivity. Qed.

Lemma round_nearest_even_bounds (m : Z) (l : location) :
  m <= round_nearest_even m l <= m + 1.
Proof.
  destruct l as [|[| |]]; simpl; try lia.
  destruct (Z.even m); lia.
Qed.

Lemma fexp32 (x : Z) : fexp F32.prec F32.emax x = Z.max (x - 24) (-149).
Proof. reflexivity. Qed.

Lemma shr_fexp_spec (m e : Z) (l : location) :
  0 <= m ->
  0 <= fexp F32.prec F32.emax (Zdigits2 m + e) - e ->
  shr_m (fst (shr_fexp F32.prec F32.emax m e l))
  = m / 2 ^ (fexp F32.prec F32.emax (Zdigits2 m + e) - e)
  /\ snd (shr_fexp F32.prec F32.emax m e l) = fexp F32.prec F32.emax (Zdigits2 m + e).
Proof.
  intros Hm Hn. unfold shr_fexp.
  destruct (shr_m_shr (shr_record_of_loc m l) e
              (fexp F32.prec F32.emax (Zdigits2 m + e) - e)) as [H1 H2].
  - rewrite shr_m_of_loc. exact Hm.
  - exact Hn.
  - rewrite H1, H2, shr_m_of_loc. split; [reflexivity|lia].
Qed.

Lemma round_aux_normal (s : bool) (m : positive) (e : Z) (l : location) :
  let d := Z.pos (digits2_pos m) in
  24 <= d -> -149 <= e + d - 24 ->
  exists m3 e3,
    binary_round_aux F32.prec F32.emax s (Z.pos m) e l
    = (if e3 <=? F32.emax - F32.prec then S754_finite s m3 e3 else S754_infinity s)
    /\ 2 ^ 23 <= Z.pos m3 < 2 ^ 24
    /\ e + d - 24 <= e3 <= e + d - 24 + 1
    /\ Z.pos m / 2 ^ (d - 24) <= Z.pos m3 * 2 ^ (e3 - (e + d - 24))
       <= Z.pos m / 2 ^ (d - 24) + 1.
Proof.
  intros d Hd He.
  set (k := d - 24). set (e1 := e + d - 24). set (m1 := Z.pos m / 2 ^ k).
  assert (Hk : 0 <= k) by (unfold k; lia).
  (* the truncated mantissa has 24 digits *)
  assert (Hm1 : 2 ^ 23 <= m1 < 2 ^ 24).
  { pose proof (digits2_bounds m) as Hb. fold d in Hb.
    assert (Hp : 0 < 2 ^ k) by (apply Z.pow_pos_nonneg; lia).
    assert (Hlo : 2 ^ (d - 1) = 2 ^ k * 2 ^ 23).
    { rewrite <- pow2_split by lia. f_equal. unfold k. lia. }
    assert (Hhi : 2 ^ d = 2 ^ k * 2 ^ 24).
    { rewrite <- pow2_split by lia. f_equal. unfold k. lia. }
    rewrite Hlo, Hhi in Hb.
    unfold m1. split.
    - apply Z.div_le_lower_bound; lia.
    - apply Z.div_lt_upper_bound; lia. }
  unfold binary_round_aux.
  (* first shift *)
  assert (Hf1 : fexp F32.prec F32.emax (Zdigits2 (Z.pos m) + e) = e1).
  { rewrite fexp32. simpl Zdigits2. fold d. unfold e1. lia. }
  destruct (shr_fexp_spec (Z.pos m) e l) as [Hr1 He1]; [lia|rewrite Hf1; unfold e1; lia|].
  rewrite Hf1 in Hr1, He1.
  replace (e1 - e) with k in Hr1 by (unfold e1, k; lia). fold m1 in Hr1.
  destruct (shr_fexp F32.prec F32.emax (Z.pos m) e l) as [r1 e1'].
  simpl in Hr1, He1. subst e1'.
  pose proof (round_nearest_even_bounds (shr_m r1) (loc_of_shr_record r1)) as Hm2.
  remember (round_nearest_even (shr_m r1) (loc_of_shr_record r1)) as m2 eqn:Em2.
  rewrite Hr1 in Hm2. clear Em2.
  destruct m2 as [|p2|p2]; try lia.
  (* second shift *)
  destruct (Z.eq_dec (Z.pos p2) (2 ^ 24)) as [Htop|Hntop].
  - assert (Hd2 : Z.pos (digits2_pos p2) = 25) by (apply digits2_unique; simpl; lia).
    assert (Hf2 : fexp F32.prec F32.emax (Zdigits2 (Z.pos p2) + e1) = e1 + 1).
    { rewrite fexp32. simpl Zdigits2. rewrite Hd2. unfold e1. lia. }
    destruct (shr_fexp_spec (Z.pos p2) e1 loc_Exact) as [Hr2 He2]; [lia|rewrite Hf2; lia|].
    rewrite Hf2 in Hr2, He2.
    replace (e1 + 1 - e1) with 1 in Hr2 by lia.
    destruct (shr_fexp F32.prec F32.emax (Z.pos p2) e1 loc_Exact) as [r2 e2].
    simpl in Hr2, He2. subst e2.
    rewrite Htop in Hr2. change (2 ^ 24 / 2 ^ 1) with (Z.pos 8388608) in Hr2.
    rewrite Hr2.
    exists 8388608%positive, (e1 + 1). split; [reflexivity|].
    split; [simpl; lia|]. split; [lia|].
    replace (e1 + 1 - e1) with 1 by lia. simpl (2 ^ 1). lia.
  - assert (Hd2 : Z.pos (digits2_pos p2) = 24) by (apply digits2_unique; simpl; lia).
    assert (Hf2 : fexp F32.prec F32.emax (Zdigits2 (Z.pos p2) + e1) = e1).
    { rewrite fexp32. simpl Zdigits2. rewrite Hd2. unfold e1. lia. }
    destruct (shr_fexp_spec (Z.pos p2) e1 loc_Exact) as [Hr2 He2]; [lia|rewrite Hf2; lia|].
    rewrite Hf2 in Hr2, He2.
    replace (e1 - e1) with 0 in Hr2 by lia.
    destruct (shr_fexp F32.prec F32.emax (Z.pos p2) e1 loc_Exact) as [r2 e2].
    simpl in Hr2, He2. subst e2.
    rewrite Z.div_1_r in Hr2. rewrite Hr2.
    exists p2, e1. split; [reflexivity|].
    split; [lia|]. split; [lia|].
    replace (e1 - e1) with 0 by lia. simpl (2 ^ 0). lia.
Qed.

Lemma shr_fexp_zero (m e : Z) (l : location) :
  fexp F32.prec F32.emax (Zdigits2 m + e) - e = 0 ->
  shr_fexp F32.prec F32.emax m e l = (shr_record_of_loc m l, e).
Proof.
  intros Hf. unfold shr_fexp.
  match goal with |- shr ?r ?e ?n = _ => replace n with 0 by (symmetry; exact Hf) end.
  reflexivity.
Qed.

Lemma round_aux_exact (s : bool) (m : positive) (e : Z) :
  Z.pos (digits2_pos m) = 24 -> -149 <= e ->
  binary_round_aux F32.prec F32.emax s (Z.pos m) e loc_Exact
  = if e <=? 104 then S754_finite s m e else S754_infinity s.
Proof.
  intros Hd He.
  assert (Hf : fexp F32.prec F32.emax (Zdigits2 (Z.pos m) + e) - e = 0).
  { rewrite fexp32. simpl Zdigits2. rewrite Hd. lia. }
  unfold binary_round_aux.
  rewrite (shr_fexp_zero _ _ _ Hf). simpl round_nearest_even.
  rewrite (shr_fexp_zero _ _ _ Hf). reflexivity.
Qed.

Lemma iter_xO_pow (p m : positive) : Z.pos (Pos.iter xO m p) = Z.pos m * 2 ^ Z.pos p.
Proof.
  induction p as [|p IH] using Pos.peano_ind.
  - simpl. lia.
  - rewrite Pos.iter_succ, Pos2Z.inj_xO, IH, Pos2Z.inj_succ, Z.pow_succ_r by lia. lia.
Qed.

Lemma digits2_shift (m m' : positive) (j : Z) :
  0 <= j -> Z.pos m' = Z.pos m * 2 ^ j ->
  Z.pos (digits2_pos m') = Z.pos (digits2_pos m) + j.
Proof.
  intros Hj Hm'. apply digits2_unique. rewrite Hm'.
  pose proof (digits2_bounds m) as Hb.
  assert (Hp : 0 < 2 ^ j) by (apply Z.pow_pos_nonneg; lia).
  assert (Hd : 1 <= Z.pos (digits2_pos m)) by lia.
  replace (Z.pos (digits2_pos m) + j - 1) with ((Z.pos (digits2_pos m) - 1) + j) by lia.
  rewrite !pow2_split by lia. nia.
Qed.

Lemma shl_align_spec (m : positive) (e e' : Z) :
  (e' < e ->
   Z.pos (fst (shl_align m e e')) = Z.pos m * 2 ^ (e - e')
   /\ snd (shl_align m e e') = e')
  /\ (e <= e' -> shl_align m e e' = (m, e)).
Proof.
  unfold shl_align.
  match goal with |- context [match ?x with _ => _ end] => destruct x as [|j|j] eqn:Hx end;
    match type of Hx with _ = ?v => change (e' - e = v) in Hx end.
  - split; [intros H; exfalso; lia|reflexivity].
  - split; [intros H; exfalso; lia|reflexivity].
  - split; [|intros H; exfalso; lia]. intros _. simpl fst. simpl snd.
      rewrite iter_xO_pow. split; [|reflexivity].
    replace (e - e') with (Z.pos j) by lia. reflexivity.
Qed.

(** Rounding of a positive integer mantissa [m] at exponent [e] whose value
    is in the normal range. *)
Lemma binary_round_normal (s : bool) (m : positive) (e : Z) :
  let d := Z.pos (digits2_pos m) in
  -149 <= e + d - 24 ->
  (binary_round F32.prec F32.emax s m e = S754_infinity s /\ 104 <= e + d - 24)
  \/ exists m3 e3,
       binary_round F32.prec F32.emax s m e = S754_finite s m3 e3
       /\ 2 ^ 23 <= Z.pos m3 < 2 ^ 24
       /\ e + d - 24 <= e3 <= e + d - 24 + 1
       /\ (d <= 24 -> e3 = e + d - 24 /\ Z.pos m3 = Z.pos m * 2 ^ (24 - d))
       /\ (24 <= d ->
           Z.pos m / 2 ^ (d - 24) <= Z.pos m3 * 2 ^ (e3 - (e + d - 24))
           <= Z.pos m / 2 ^ (d - 24) + 1).
Proof.
  intros d He. unfold binary_round.
  assert (Hf : fexp F32.prec F32.emax (Z.pos (digits2_pos m) + e) = e + d - 24).
  { rewrite fexp32. fold d. lia. }
  rewrite Hf. set (e1 := e + d - 24) in *.
  destruct (shl_align_spec m e e1) as [Hshl Hid].
  destruct (Z.lt_ge_cases e1 e) as [Hlt|Hge].
  - (* fewer than 24 digits: the mantissa is aligned to 24 digits, exactly *)
    destruct (Hshl Hlt) as [Hm' He']. clear Hshl Hid.
    destruct (shl_align m e e1) as [m' e'']. cbn [fst snd] in Hm', He'. subst e''.
    assert (Hd' : Z.pos (digits2_pos m') = 24).
    { rewrite (digits2_shift m m' (e - e1)); [fold d; unfold e1; lia|lia|exact Hm']. }
    rewrite round_aux_exact by (assumption || lia).
    destruct (Z.leb_spec e1 104) as [Hle|Hgt]; [right|left; split; [reflexivity|lia]].
    exists m', e1. split; [reflexivity|].
    pose proof (digits2_bounds m') as Hb. rewrite Hd' in Hb.
    split; [simpl in Hb |- *; lia|]. split; [lia|]. split.
    + intros _. split; [reflexivity|]. rewrite Hm'.
        replace (e - e1) with (24 - d) by (unfold e1; lia). reflexivity.
    + intros H. unfold e1 in Hlt. lia.
  - rewrite (Hid Hge). clear Hshl Hid.
    destruct (round_aux_normal s m e loc_Exact) as (m3 & e3 & Hr & Hm3 & He3 & Hv);
      [fold d; unfold e1 in Hge; lia|fold d; exact He|].
    fold d in He3, Hv. fold e1 in He3, Hv.
    destruct (Z.eq_dec d 24) as [Hd|Hd].
    + (* exactly 24 digits *)
      rewrite round_aux_exact by (fold d; assumption || (unfold e1 in He; lia)).
      assert (Hee : e1 = e) by (unfold e1; lia).
      destruct (Z.leb_spec e 104) as [Hle|Hgt]; [right|left; split; [reflexivity|lia]].
      exists m, e. split; [reflexivity|].
      pose proof (digits2_bounds m) as Hb. fold d in Hb. rewrite Hd in Hb.
      split; [simpl in Hb |- *; lia|]. split; [lia|].
      rewrite Hd, Hee. change (24 - 24) with 0. replace (e - e) with 0 by lia.
      simpl (2 ^ 0). rewrite Z.div_1_r. repeat split; lia.
    + rewrite Hr.
      destruct (Z.leb_spec e3 (F32.emax - F32.prec)) as [Hle|Hgt];
        [right|left; split; [reflexivity|change (F32.emax - F32.prec) with 104 in Hgt; lia]].
      exists m3, e3. split; [reflexivity|]. split; [exact Hm3|]. split; [exact He3|].
      split; [intros H; unfold e1 in Hge; lia|intros _; exact Hv].
Qed.

Lemma digits2_lt (p : positive) (j : Z) : Z.pos p < 2 ^ j -> Z.pos (digits2_pos p) <= j.
Proof.
  intros H. pose proof (digits2_bounds p) as Hb.
  destruct (Z.le_gt_cases (Z.pos (digits2_pos p)) j) as [|Hgt]; [assumption|].
  assert (2 ^ j <= 2 ^ (Z.pos (digits2_pos p) - 1)); [|lia].
  apply Z.pow_le_mono_r; lia.
Qed.

Lemma digits2_ge (p : positive) (j : Z) :
  0 <= j -> 2 ^ j <= Z.pos p -> j + 1 <= Z.pos (digits2_pos p).
Proof.
  intros Hj H. pose proof (digits2_bounds p) as Hb.
  destruct (Z.le_gt_cases (j + 1) (Z.pos (digits2_pos p))) as [|Hgt]; [assumption|].
  assert (2 ^ Z.pos (digits2_pos p) <= 2 ^ j); [|lia].
  apply Z.pow_le_mono_r; lia.
Qed.

(** The integral part of a finite float, from its value scaled by [2^64]. *)
Lemma trunc_mag_scaled (m : positive) (e : Z) :
  -64 <= e -> F32.trunc_mag m e = (Z.pos m * 2 ^ (e + 64)) / 2 ^ 64.
Proof.
  intros He. unfold F32.trunc_mag.
  destruct e as [|p|p].
  - change (0 + 64) with 64. rewrite Z.div_mul by lia. simpl (2 ^ 0). lia.
  - rewrite pow2_split by lia.
    rewrite Z.mul_assoc, Z.div_mul by lia. reflexivity.
  - assert (H64 : 2 ^ 64 = 2 ^ (Z.neg p + 64) * 2 ^ Z.pos p).
    { rewrite <- pow2_split by lia. f_equal. lia. }
    rewrite H64.
    assert (0 < 2 ^ (Z.neg p + 64)) by (apply Z.pow_pos_nonneg; lia).
    assert (0 < 2 ^ Z.pos p) by (apply Z.pow_pos_nonneg; lia).
    rewrite (Z.mul_comm (Z.pos m)), Z.div_mul_cancel_l by lia. reflexivity.
Qed.

Lemma trunc_mag_ge_one (m : positive) (e : Z) :
  2 ^ 23 <= Z.pos m -> -23 <= e -> 1 <= F32.trunc_mag m e.
Proof.
  intros Hm He. rewrite trunc_mag_scaled by lia.
  apply Z.div_le_lower_bound; [lia|].
  assert (Hp : 2 ^ 41 <= 2 ^ (e + 64)) by (apply Z.pow_le_mono_r; lia).
  change (2 ^ 64 * 1) with (2 ^ 23 * 2 ^ 41). nia.
Qed.

(** Conversion of a positive 64-bit integer: a normal float whose value
    is within one unit in the last place of the integer. *)
Lemma of_Z_spec (c : Z) :
  1 <= c < 2 ^ 64 ->
  exists mc ec,
    F32.of_Z c = S754_finite false mc ec
    /\ 2 ^ 23 <= Z.pos mc < 2 ^ 24
    /\ -23 <= ec <= 41
    /\ (Z.pos mc - 1) * 2 ^ (ec + 64) <= c * 2 ^ 64.
Proof.
  intros Hc. destruct c as [|m|m]; try lia.
  unfold F32.of_Z, binary_normalize.
  set (d := Z.pos (digits2_pos m)).
  assert (Hd : 1 <= d <= 64).
  { split; [unfold d; lia|]. apply digits2_lt. lia. }
  destruct (binary_round_normal false m 0) as [[_ Hinf]|(m3 & e3 & Hr & Hm3 & He3 & Hex & Hv)];
    fold d; try lia.
  fold d in He3, Hex, Hv.
  exists m3, e3. split; [exact Hr|]. split; [exact Hm3|]. split; [lia|].
  destruct (Z.le_gt_cases d 24) as [Hsmall|Hbig].
  - destruct (Hex Hsmall) as [-> Hm]. rewrite Hm.
    assert (H64 : 2 ^ 64 = 2 ^ (24 - d) * 2 ^ (0 + d - 24 + 64)).
    { rewrite <- pow2_split by lia. f_equal. lia. }
    rewrite H64.
    assert (0 < 2 ^ (24 - d)) by (apply Z.pow_pos_nonneg; lia).
    assert (0 < 2 ^ (0 + d - 24 + 64)) by (apply Z.pow_pos_nonneg; lia).
    nia.
  - specialize (Hv ltac:(lia)).
    set (k := d - 24) in *.
    assert (Hk : 0 < 2 ^ k) by (apply Z.pow_pos_nonneg; unfold k; lia).
    assert (Hq : Z.pos m / 2 ^ k * 2 ^ k <= Z.pos m).
    { pose proof (Z.mul_div_le (Z.pos m) (2 ^ k) Hk). lia. }
    replace (0 + d - 24) with k in * by (unfold k; lia).
    assert (He : e3 = k \/ e3 = k + 1) by lia.
    destruct He as [-> | ->].
    + replace (k - k) with 0 in Hv by lia. simpl (2 ^ 0) in Hv.
      rewrite pow2_split by (unfold k; lia). nia.
    + replace (k + 1 - k) with 1 in Hv by lia. simpl (2 ^ 1) in Hv.
      replace (k + 1 + 64) with (k + 1 + 64) by lia.
      rewrite !pow2_split by (unfold k; lia). simpl (2 ^ 1). nia.
Qed.

Lemma mul_comm (x y : F32.float) : F32.mul x y = F32.mul y x.
Proof.
  destruct x as [sx|sx| |sx mx ex], y as [sy|sy| |sy my ey];
    unfold F32.mul, SFmul; try rewrite (xorb_comm sx sy); try reflexivity.
  change (binary_round_aux F32.prec F32.emax (xorb sy sx) (Z.pos (mx * my)) (ex + ey) loc_Exact
          = binary_round_aux F32.prec F32.emax (xorb sy sx) (Z.pos (my * mx))
              (ey + ex) loc_Exact).
  rewrite (Pos.mul_comm mx my), (Z.add_comm ex ey). reflexivity.
Qed.

(** The multiplicative decrease: the product of a window by a backoff
    factor [mb · 2^-24] in [[1/2, 1 − 2^-22]] converts to a value that
    does not exceed the window. *)
Lemma mul_backoff_le (c : Z) (mb : positive) :
  0 <= c < 2 ^ 64 -> 2 ^ 23 <= Z.pos mb <= 2 ^ 24 - 4 ->
  exists w,
    F32.to_u64 (F32.mul (F32.of_Z c) (S754_finite false mb (-24))) = Some w
    /\ 0 <= w <= c.
Proof.
  intros Hc Hmb.
  destruct (Z.eq_dec c 0) as [->|Hc0].
  { exists 0. split; [reflexivity|lia]. }
  destruct (of_Z_spec c) as (mc & ec & Hof & Hmc & Hec & Hval); [lia|].
  rewrite Hof.
  change (F32.mul (S754_finite false mc ec) (S754_finite false mb (-24)))
    with (binary_round_aux F32.prec F32.emax false (Z.pos (mc * mb)) (ec + -24) loc_Exact).
  set (D := Z.pos (digits2_pos (mc * mb))).
  assert (HM : 2 ^ 46 <= Z.pos (mc * mb) < 2 ^ 48 /\ Z.pos (mc * mb) < 2 ^ 24 * (Z.pos mc - 1)).
  { rewrite Pos2Z.inj_mul. change (2 ^ 46) with (2 ^ 23 * 2 ^ 23).
    change (2 ^ 48) with (2 ^ 24 * 2 ^ 24). nia. }
  destruct HM as [HM HM'].
  assert (HD : 47 <= D <= 48).
  { split; [apply (digits2_ge _ 46); lia|apply digits2_lt; lia]. }
  destruct (round_aux_normal false (mc * mb) (ec + -24) loc_Exact)
    as (m3 & e3 & Hr & Hm3 & He3 & Hv); fold D; try lia.
  fold D in He3, Hv. rewrite Hr.
  destruct (Z.leb_spec e3 (F32.emax - F32.prec)) as [_|Hgt];
    [|change (F32.emax - F32.prec) with 104 in Hgt; lia].
  assert (Hscaled : Z.pos m3 * 2 ^ (e3 + 64) <= (Z.pos mc - 1) * 2 ^ (ec + 64)).
  { set (e1 := ec + -24 + D - 24) in *.
    assert (Hsplit : 2 ^ (e3 + 64) = 2 ^ (e3 - e1) * 2 ^ (e1 + 64)).
    { rewrite <- pow2_split by lia. f_equal. lia. }
    rewrite Hsplit.
    assert (Hp1 : 0 < 2 ^ (e1 + 64)) by (apply Z.pow_pos_nonneg; lia).
    assert (HD' : D = 48 \/ D = 47) by lia.
    destruct HD' as [HD'|HD']; rewrite HD' in *.
    - assert (He1 : e1 = ec) by (unfold e1; lia). rewrite He1 in *.
      change (48 - 24) with 24 in Hv.
      assert (Z.pos (mc * mb) / 2 ^ 24 < Z.pos mc - 1)
        by (apply Z.div_lt_upper_bound; lia).
      nia.
    - assert (He1 : ec + 64 = 1 + (e1 + 64)) by (unfold e1; lia). rewrite He1.
      rewrite (pow2_split 1) by lia. simpl (2 ^ 1).
      change (47 - 24) with 23 in Hv.
      assert (Z.pos (mc * mb) / 2 ^ 23 < 2 * (Z.pos mc - 1)).
      { apply Z.div_lt_upper_bound; [lia|]. change (2 ^ 24) with (2 * 2 ^ 23) in HM'. lia. }
      nia. }
  assert (Hv64 : 0 <= F32.trunc_mag m3 e3 <= c).
  { rewrite trunc_mag_scaled by lia. split.
    - apply Z.div_pos; [|lia].
      assert (0 < 2 ^ (e3 + 64)) by (apply Z.pow_pos_nonneg; lia). lia.
    - apply Z.div_le_upper_bound; lia. }
  exists (F32.trunc_mag m3 e3). split; [|exact Hv64].
  unfold F32.to_u64.
  destruct (Z.ltb_spec (F32.trunc_mag m3 e3) C.UINT64_MOD) as [_|Hge]; [reflexivity|].
  unfold C.UINT64_MOD in Hge. lia.
Qed.

Lemma has_some_sign (x : F32.float) : exists s, has_sign s x.
Proof. destruct x as [s|s| |s m e]; try (exists s; reflexivity). exists false. exact I. Qed.

Lemma round_aux_sign (s : bool) (m e : Z) (l : location) :
  has_sign s (binary_round_aux F32.prec F32.emax s m e l).
Proof.
  unfold binary_round_aux.
  destruct (shr_fexp F32.prec F32.emax m e l) as [r1 e1].
  destruct (shr_fexp F32.prec F32.emax _ e1 loc_Exact) as [r2 e2].
  destruct (shr_m r2); [reflexivity| |exact I].
  destruct (e2 <=? F32.emax - F32.prec); reflexivity.
Qed.

Lemma of_Z_sign (z : Z) : 0 <= z -> has_sign false (F32.of_Z z).
Proof.
  intros Hz. destruct z as [|m|m]; [reflexivity| |lia].
  unfold F32.of_Z, binary_normalize, binary_round.
  destruct (shl_align m 0 _) as [mz ez]. apply round_aux_sign.
Qed.

Lemma mul_sign (sx sy : bool) (x y : F32.float) :
  has_sign sx x -> has_sign sy y -> has_sign (xorb sx sy) (F32.mul x y).
Proof.
  destruct x as [s1|s1| |s1 m1 e1], y as [s2|s2| |s2 m2 e2]; simpl;
    intros Hx Hy; subst; try reflexivity; try exact I.
  apply round_aux_sign.
Qed.

Lemma div_sign (sx sy : bool) (x y : F32.float) :
  has_sign sx x -> has_sign sy y -> has_sign (xorb sx sy) (F32.div x y).
Proof.
  destruct x as [s1|s1| |s1 m1 e1], y as [s2|s2| |s2 m2 e2]; simpl;
    intros Hx Hy; subst; try reflexivity; try exact I.
  unfold F32.div, SFdiv.
  destruct (SFdiv_core_binary F32.prec F32.emax (Z.pos m1) e1 (Z.pos m2) e2) as [[mz ez] lz].
  apply round_aux_sign.
Qed.

Lemma Alpha_sign (n : Z) : has_sign false (Alpha n).
Proof.
  unfold Alpha.
  destruct (has_some_sign (F32.sub (F32.of_Z 1) (Beta n))) as [s Hs].
  replace false with (xorb (xorb false s) s) by (destruct s; reflexivity).
  apply div_sign; [|exact Hs].
  apply mul_sign; [|exact Hs].
  apply of_Z_sign. apply u64_range.
Qed.

(** Adding a non-negative float to a float that is at least 1 gives, when
    the sum converts to [uint64_t], at least 1. *)
Lemma add_ge_one (me : positive) (ee : Z) (x : F32.float) (w : Z) :
  2 ^ 23 <= Z.pos me -> -23 <= ee ->
  has_sign false x ->
  F32.to_u64 (F32.add (S754_finite false me ee) x) = Some w ->
  1 <= w.
Proof.
  intros Hme Hee Hx.
  destruct x as [s|s| |s mx ex]; simpl in Hx; subst.
  - (* zero *)
    simpl. destruct (_ <? _); [|discriminate].
    intros [= <-]. apply trunc_mag_ge_one; assumption.
  - discriminate.
  - discriminate.
  - unfold F32.add, SFadd.
    set (ez := Z.min ee ex).
    change (cond_Zopp false ?z) with z.
    destruct (shl_align_spec me ee ez) as [Ha1 Ha2].
    destruct (shl_align me ee ez) as [a ea]. cbn [fst snd] in *.
    destruct (shl_align mx ex ez) as [b eb]. cbn [fst snd] in *.
    change (Z.pos a + Z.pos b) with (Z.pos (a + b)).
    unfold binary_normalize.
    (* the first operand, aligned on [ez], is at least [2 ^ (23 + ee - ez)] *)
    assert (Ha : 2 ^ (23 + (ee - ez)) <= Z.pos a).
    { assert (0 <= ee - ez) by (unfold ez; lia).
      rewrite pow2_split by lia.
      assert (Hp : 0 < 2 ^ (ee - ez)) by (apply Z.pow_pos_nonneg; lia).
      destruct (Z.lt_ge_cases ez ee) as [Hlt|Hge].
      - destruct (Ha1 Hlt) as [-> _]. nia.
      - assert (Heq : ee - ez = 0) by (unfold ez in *; lia).
        injection (Ha2 ltac:(lia)) as -> _. rewrite Heq. simpl (2 ^ 0). lia. }
    assert (Hd : 23 + (ee - ez) + 1 <= Z.pos (digits2_pos (a + b))).
    { apply digits2_ge; [unfold ez; lia|]. rewrite Pos2Z.inj_add. lia. }
    destruct (binary_round_normal false (a + b) ez)
      as [[Hr _]|(m3 & e3 & Hr & Hm3 & He3 & _)]; [lia| |]; rewrite Hr.
    + discriminate.
    + simpl. destruct (_ <? _); [|discriminate].
      intros [= <-]. apply trunc_mag_ge_one; lia.
Qed.

Lemma nr_update_positive (n nb est est' : Z) :
  0 <= nb -> 1 <= est < 2 ^ 64 ->
  nr_update n nb est = Some est' -> 1 <= est'.
Proof.
  intros Hnb Hest. unfold nr_update.
  destruct (of_Z_spec est Hest) as (me & ee & Hof & Hme & Hee & _).
  rewrite Hof. apply add_ge_one; [lia|lia|].
  rewrite <- Hof.
  change false with (xorb (xorb false (xorb false false)) false).
  apply div_sign.
  - apply mul_sign; [apply of_Z_sign; exact Hnb|].
    apply mul_sign; [apply Alpha_sign|apply of_Z_sign; unfold DEFAULT_TCP_MSS; lia].
  - apply of_Z_sign. lia.
Qed.

Lemma to_u64_range (x : F32.float) (w : Z) :
  F32.to_u64 x = Some w -> 0 <= w < 2 ^ 64.
Proof.
  destruct x as [s|s| |[|] m e]; simpl; try discriminate.
  - intros [= <-]. lia.
  - destruct (_ =? _); [|discriminate]. intros [= <-]. lia.
  - destruct (Z.ltb_spec (F32.trunc_mag m e) C.UINT64_MOD) as [Hlt|]; [|discriminate].
    intros [= <-]. split; [|exact Hlt].
    unfold F32.trunc_mag. destruct e as [|p|p].
    + lia.
    + assert (0 < 2 ^ Z.pos p) by (apply Z.pow_pos_nonneg; lia). lia.
    + apply Z.div_pos; [lia|]. apply Z.pow_pos_nonneg; lia.
Qed.

(** *** Range of the backoff factors *)

Lemma backoff_ok_inv (b : F32.float) :
  backoff_ok b = true ->
  exists mb, b = S754_finite false mb (-24) /\ 2 ^ 23 <= Z.pos mb <= 2 ^ 24 - 4.
Proof.
  destruct b as [s|s| |[|] m e]; simpl; try discriminate.
  destruct e as [|p|p]; try discriminate.
  destruct (Pos.eq_dec p 24) as [->|Hp].
  - intros H. apply andb_true_iff in H. destruct H as [H1 H2].
    apply Z.leb_le in H1, H2. exists m. split; [reflexivity|lia].
  - do 5 (destruct p as [p|p|]; try discriminate); exfalso; apply Hp; reflexivity.
Qed.

Lemma backoffs_ok_from_spec (fuel : nat) :
  forall s n,
    backoffs_ok_from fuel s = true ->
    s <= n < s + Z.of_nat fuel ->
    backoff_ok (Beta n) = true /\ backoff_ok (BetaLastMax n) = true.
Proof.
  induction fuel as [|fuel IH]; intros s n Hok Hn.
  - simpl in Hn. lia.
  - cbn [backoffs_ok_from] in Hok.
    apply andb_true_iff in Hok. destruct Hok as [Hok Hrest].
    apply andb_true_iff in Hok. destruct Hok as [Hb Hl].
    destruct (Z.eq_dec n s) as [->|Hne]; [split; assumption|].
    apply (IH (s + 1)); [exact Hrest|].
    rewrite Nat2Z.inj_succ in Hn. lia.
Qed.

Lemma backoffs_ok_checked :
  backoffs_ok_from (Z.to_nat MAX_CHECKED_STREAMS) 1 = true.
Proof. vm_compute. reflexivity. Qed.

Lemma backoff_ok_streams (n : Z) :
  1 <= n <= MAX_CHECKED_STREAMS ->
  backoff_ok (Beta n) = true /\ backoff_ok (BetaLastMax n) = true.
Proof.
  intros Hn. apply (backoffs_ok_from_spec _ 1 n backoffs_ok_checked).
  rewrite Z2Nat.id by (unfold MAX_CHECKED_STREAMS; lia). lia.
Qed.

(** *** Line 220: the elapsed time *)

(** C3. The elapsed time fed to the cubic target is the plain difference
    [now - epoch_start_time] (shifted by [10 / MICROSEC_PER_SEC = 0] bits):
    the shift by 10 and the division by 1,000,000 that the claim states
    are not performed.  One second after the epoch start the code uses
    1,000,000 where the claim gives 1,024. *)
Theorem elapsed_time_not_scaled :
  (forall now epoch_start,
      elapsed_time now epoch_start = C.to_int64 (C.u64 (now - epoch_start)))
  /\ elapsed_time 2000000 1000000 = 1000000
  /\ elapsed_time_spec 2000000 1000000 = 1024.
Proof.
  split; [|split; reflexivity].
  intros now epoch_start. unfold elapsed_time.
  change (10 / MICROSEC_PER_SEC) with 0.
  rewrite Z.shiftl_0_r, u64_idem. reflexivity.
Qed.

(** *** Lines 230-232: the cubic target *)


(** *** The scaling primitives *)

(** C2. For one stream the code's [Alpha] is [3.0f], the value of
    [3·n·n] (its numerator and denominator both hold [1 − Beta]); the
    formula of the claim, with [1 + Beta] as denominator, gives
    [8882056 · 2^-24], about 0.5294. *)
Theorem Alpha_single_stream :
  Alpha 1 = S754_finite false 12582912 (-22)
  /\ Alpha_spec 1 = S754_finite false 8882056 (-24)
  /\ Alpha 1 <> Alpha_spec 1.
Proof. vm_compute. repeat split; congruence. Qed.

(** C5, counterexample. With no stream the backoff factor is not the one
    of a single stream: [Beta 0] is [+infinity] (a division by the float
    zero) and [Beta 1] is [0.7f]. *)
Lemma Beta_zero_streams_differs :
  Beta 0 = S754_infinity false /\ Beta 1 = kBeta /\ Beta 0 <> Beta 1.
Proof. vm_compute. repeat split; congruence. Qed.

Lemma mul_infinity_undefined_l (x : F32.float) :
  F32.to_u64 (F32.mul (S754_infinity false) x) = None.
Proof. destruct x as [s|s| |s m e]; try destruct s; reflexivity. Qed.

Lemma mul_infinity_undefined_r (x : F32.float) :
  F32.to_u64 (F32.mul x (S754_infinity false)) = None.
Proof. destruct x as [s|s| |s m e]; try destruct s; reflexivity. Qed.

Section Properties.

Variable PICOQUIC_CWIN_INITIAL : Z.
Variable cbrt_u64 : Z -> Z.
Variable pacing_data : Type.
Variable pacing_of : picoquic_path_t pacing_data -> pacing_data.


(** C5, amended. When [total_stream_count] is 0 the primitives do not
    take the count for 1: [Beta] and [BetaLastMax] divide by the float
    zero and are [+infinity], [Alpha] is NaN, and the window update of
    [picoquic_cubic_process_loss], which converts a product with
    [Beta] to [uint64_t], is undefined. *)
Theorem scaling_primitives_zero_streams :
  forall (path_x : picoquic_path_t pacing_data) (cu_state : picoquic_cubic_state_t),
    congestion_alg_state path_x = Some cu_state ->
    total_stream_count path_x = 0 ->
    Beta (total_stream_count path_x) = S754_infinity false
    /\ BetaLastMax (total_stream_count path_x) = S754_infinity false
    /\ Alpha (total_stream_count path_x) = S754_nan
    /\ picoquic_cubic_process_loss path_x = None.
Proof.
  intros path_x cu_state Hs Hn. rewrite Hn.
  repeat split; try reflexivity.
  unfold picoquic_cubic_process_loss. rewrite Hs, Hn.
  change (Beta 0) with (S754_infinity false).
  change (BetaLastMax 0) with (S754_infinity false).
  rewrite mul_infinity_undefined_r.
  destruct (_ <? _); [rewrite mul_infinity_undefined_l|]; reflexivity.
Qed.

(** *** The application-limited acknowledgement *)

(** C8. An acknowledgement that finds [bytes_in_transit < cwin] only
    sets [epoch_start_time] to 0: [cwin], the other fields of the
    controller state and the rest of the path are unchanged. *)
Theorem process_ack_application_limited :
  forall (kCubeFactor : Z) (path_x : picoquic_path_t pacing_data)
         (cu_state : picoquic_cubic_state_t)
         (current_time nb_bytes_acknowledged : Z),
    congestion_alg_state path_x = Some cu_state ->
    bytes_in_transit path_x < cwin path_x ->
    exists path' cu_state',
      picoquic_cubic_process_ack cbrt_u64 kCubeFactor path_x current_time
        nb_bytes_acknowledged
      = Some path'
      /\ congestion_alg_state path' = Some cu_state'
      /\ epoch_start_time cu_state' = 0
      /\ cwin path' = cwin path_x
      /\ estimated_nr_cwnd cu_state' = estimated_nr_cwnd cu_state
      /\ last_max_cwnd cu_state' = last_max_cwnd cu_state
      /\ time_of_origin cu_state' = time_of_origin cu_state
      /\ origin_cwnd cu_state' = origin_cwnd cu_state
      /\ last_target_cwnd cu_state' = last_target_cwnd cu_state
      /\ alg_state cu_state' = alg_state cu_state
      /\ bytes_in_transit path' = bytes_in_transit path_x
      /\ rtt_min path' = rtt_min path_x
      /\ total_stream_count path' = total_stream_count path_x
      /\ pacing path' = pacing path_x.
Proof.
  intros kCubeFactor path_x cu_state current_time nb Hs Hlt.
  unfold picoquic_cubic_process_ack. rewrite Hs.
  apply Z.ltb_lt in Hlt. rewrite Hlt.
  eexists. eexists. split; [reflexivity|].
  simpl. repeat split; reflexivity.
Qed.

(** *** Failure of the allocation *)

Lemma notify_null (kCubeFactor : Z) (path_x : picoquic_path_t pacing_data)
      notification rtt_measurement nb_bytes_acknowledged lost_packet_number
      current_time :
  congestion_alg_state path_x = None ->
  picoquic_cubic_notify cbrt_u64 pacing_of kCubeFactor path_x notification
    rtt_measurement nb_bytes_acknowledged lost_packet_number current_time
  = Some path_x.
Proof. intros H. unfold picoquic_cubic_notify. rewrite H. reflexivity. Qed.

Lemma deliver_all_null (kCubeFactor : Z) (evs : list (cc_event)) :
  forall path_x : picoquic_path_t pacing_data,
    congestion_alg_state path_x = None ->
    exists path',
      deliver_all cbrt_u64 pacing_of kCubeFactor path_x evs = Some path'
      /\ congestion_alg_state path' = None
      /\ cwin path' = cwin path_x
      /\ pacing path' = pacing path_x.
Proof.
  induction evs as [|ev evs IH]; intros path_x Hnull.
  - exists path_x. split; [reflexivity|]. split; [exact Hnull|]. split; reflexivity.
  - simpl. unfold deliver. rewrite notify_null by exact Hnull.
    simpl. destruct (IH (transport_view path_x ev) Hnull) as (p' & Hrun & Hst & Hcw & Hpa).
    exists p'. repeat split; assumption.
Qed.

(** C9. When the allocation fails, [picoquic_cubic_init] leaves the
    slot null and does not touch [cwin]; every later notification,
    whatever its kind and arguments, returns the path as it received
    it, and after any sequence of deliveries the slot is still null and
    [cwin] and the pacing data are those the path had before init. *)
Theorem notify_after_failed_init_is_noop :
  forall (path_x : picoquic_path_t pacing_data),
    let path0 := snd (picoquic_cubic_init PICOQUIC_CWIN_INITIAL false path_x) in
    congestion_alg_state path0 = None
    /\ cwin path0 = cwin path_x
    /\ (forall kCubeFactor notification rtt_measurement nb_bytes_acknowledged
               lost_packet_number current_time,
           picoquic_cubic_notify cbrt_u64 pacing_of kCubeFactor path0 notification
             rtt_measurement nb_bytes_acknowledged lost_packet_number current_time
           = Some path0)
    /\ (forall kCubeFactor evs,
           exists path',
             deliver_all cbrt_u64 pacing_of kCubeFactor path0 evs = Some path'
             /\ congestion_alg_state path' = None
             /\ cwin path' = cwin path_x
             /\ pacing path' = pacing path_x).
Proof.
  intros path_x path0.
  assert (Hnull : congestion_alg_state path0 = None) by reflexivity.
  split; [exact Hnull|]. split; [reflexivity|]. split.
  - intros. apply notify_null. exact Hnull.
  - intros kCubeFactor evs.
    destruct (deliver_all_null kCubeFactor evs path0 Hnull) as (p' & Hrun & Hst & Hcw & Hpa).
    exists p'. split; [exact Hrun|]. split; [exact Hst|]. split; assumption.
Qed.

(** *** The window in slow start and at a loss *)

Lemma total_acked_nonneg (evs : list cc_event) :
  Forall quiet_event evs -> 0 <= total_acked evs.
Proof.
  induction 1 as [|ev evs [_ Hnb] _ IH]; simpl; [lia|].
  unfold acked_bytes. destruct (ev_notification ev); lia.
Qed.

Lemma quiet_firstn (evs : list cc_event) :
  Forall quiet_event evs -> forall k, Forall quiet_event (firstn k evs).
Proof.
  induction 1 as [|ev evs Hq Hall IH]; intros [|k]; simpl; constructor; auto.
Qed.

Lemma total_acked_firstn (evs : list cc_event) :
  Forall quiet_event evs ->
  forall k, 0 <= total_acked (firstn k evs) <= total_acked evs.
Proof.
  induction 1 as [|ev evs Hq Hall IH]; intros k.
  - destruct k; simpl; lia.
  - destruct k as [|k]; simpl.
    + pose proof (total_acked_nonneg evs Hall).
      destruct Hq as [_ Hnb]. unfold acked_bytes. destruct (ev_notification ev); lia.
    + specialize (IH k). destruct Hq as [_ Hnb].
      unfold acked_bytes. destruct (ev_notification ev); lia.
Qed.

Lemma slow_start_quiet_step (kCubeFactor : Z) (path_x : picoquic_path_t pacing_data)
      (cu_state : picoquic_cubic_state_t) (ev : cc_event) :
  congestion_alg_state path_x = Some cu_state ->
  alg_state cu_state = picoquic_cubic_alg_slow_start ->
  quiet_event ev ->
  0 <= cwin path_x ->
  cwin path_x + acked_bytes ev < 2 ^ 64 ->
  exists path',
    deliver cbrt_u64 pacing_of kCubeFactor path_x ev = Some path'
    /\ congestion_alg_state path' = Some cu_state
    /\ cwin path' = cwin path_x + acked_bytes ev.
Proof.
  intros Hs Ha [Hloss Hnb] Hc Hsum.
  unfold deliver, picoquic_cubic_notify.
  cbn [congestion_alg_state transport_view]. rewrite Hs, Ha.
  unfold acked_bytes in *.
  destruct (ev_notification ev); try discriminate Hloss; cbn [bind];
    eexists; (split; [reflexivity|]); (split; [exact Hs|]);
    cbn [cwin picoquic_update_pacing_data set_cwin transport_view]; try lia.
  apply u64_small. unfold C.UINT64_MOD. lia.
Qed.

Lemma slow_start_quiet_run (kCubeFactor : Z) (evs : list cc_event) :
  forall (path_x : picoquic_path_t pacing_data) (cu_state : picoquic_cubic_state_t),
    congestion_alg_state path_x = Some cu_state ->
    alg_state cu_state = picoquic_cubic_alg_slow_start ->
    Forall quiet_event evs ->
    0 <= cwin path_x ->
    cwin path_x + total_acked evs < 2 ^ 64 ->
    exists path',
      deliver_all cbrt_u64 pacing_of kCubeFactor path_x evs = Some path'
      /\ congestion_alg_state path' = Some cu_state
      /\ cwin path' = cwin path_x + total_acked evs.
Proof.
  induction evs as [|ev evs IH]; intros path_x cu_state Hs Ha Hq Hc Hsum.
  - exists path_x. cbn [deliver_all total_acked]. repeat split; [exact Hs|lia].
  - inversion Hq as [|ev' evs' Hev Hall]; subst.
    pose proof (total_acked_nonneg evs Hall) as Hrest.
    assert (Hev0 : 0 <= acked_bytes ev).
    { destruct Hev as [_ Hnb]. unfold acked_bytes. destruct (ev_notification ev); lia. }
    cbn [total_acked] in Hsum.
    destruct (slow_start_quiet_step kCubeFactor path_x cu_state ev)
      as (p1 & Hstep & Hs1 & Hc1); try assumption; [lia|].
    destruct (IH p1 cu_state) as (p' & Hrun & Hs' & Hc'); try assumption; try lia.
    exists p'. cbn [deliver_all total_acked]. rewrite Hstep. cbn [bind].
    split; [exact Hrun|]. split; [exact Hs'|]. lia.
Qed.

(** What [picoquic_cubic_process_loss] leaves when it is defined. *)
Lemma process_loss_result (path_x path' : picoquic_path_t pacing_data)
    (cu_state : picoquic_cubic_state_t) :
  congestion_alg_state path_x = Some cu_state ->
  picoquic_cubic_process_loss path_x = Some path' ->
  F32.to_u64 (F32.mul (F32.of_Z (cwin path_x)) (Beta (total_stream_count path_x)))
  = Some (cwin path')
  /\ exists cu_state',
      congestion_alg_state path' = Some cu_state'
      /\ epoch_start_time cu_state' = 0
      /\ alg_state cu_state' = alg_state cu_state.
Proof.
  intros Hs. unfold picoquic_cubic_process_loss. rewrite Hs.
  destruct (if _ <? _ then _ else _) as [last_max|]; [|discriminate].
  cbn [bind].
  destruct (F32.to_u64 (F32.mul (F32.of_Z (cwin path_x)) _)) as [w|]; [|discriminate].
  cbn [bind]. intros [= <-]. split; [reflexivity|].
  eexists. split; [reflexivity|]. split; reflexivity.
Qed.

(** A loss signal runs [picoquic_cubic_process_loss] in both states. *)
Lemma notify_loss_result (kCubeFactor : Z) (path_x path' : picoquic_path_t pacing_data)
      (cu_state : picoquic_cubic_state_t) notification
      rtt_measurement nb_bytes_acknowledged lost_packet_number current_time :
  congestion_alg_state path_x = Some cu_state ->
  is_loss notification = true ->
  picoquic_cubic_notify cbrt_u64 pacing_of kCubeFactor path_x notification
    rtt_measurement nb_bytes_acknowledged lost_packet_number current_time
  = Some path' ->
  F32.to_u64 (F32.mul (F32.of_Z (cwin path_x)) (Beta (total_stream_count path_x)))
  = Some (cwin path')
  /\ exists cu_state',
      congestion_alg_state path' = Some cu_state'
      /\ epoch_start_time cu_state' = 0
      /\ alg_state cu_state' = picoquic_cubic_alg_congestion_avoidance.
Proof.
  intros Hs Hloss. unfold picoquic_cubic_notify. rewrite Hs.
  destruct (alg_state cu_state) eqn:Ha;
    destruct notification; try discriminate Hloss.
  all: match goal with
       | |- context [picoquic_cubic_process_loss ?p] =>
           destruct (picoquic_cubic_process_loss p) as [p1|] eqn:Hpl; [|discriminate]
       end.
  all: cbn [bind]; intros [= <-].
  all: eapply process_loss_result in Hpl; [|reflexivity || exact Hs].
  all: destruct Hpl as [Hw (s' & Hs' & He' & Ha')].
  all: split; [exact Hw|]; exists s'; split; [exact Hs'|]; split; [exact He'|].
  all: rewrite Ha'; try exact Ha; reflexivity.
Qed.

(** C1, amended. After a successful init [cwin] is the initial window plus
    the bytes acknowledged, hence at least [MIN_CWND], after every
    notification of a sequence that holds no Repeat or Timeout (as long
    as the 64-bit sum does not wrap); a Repeat or Timeout sets [cwin] to
    the single-precision product of [cwin] and [Beta], truncated, with
    no lower bound. *)
Theorem cwin_floor_until_first_loss :
  (forall (path_x : picoquic_path_t pacing_data) (kCubeFactor : Z)
          (evs : list cc_event) (k : nat),
      0 <= PICOQUIC_CWIN_INITIAL ->
      Forall quiet_event evs ->
      PICOQUIC_CWIN_INITIAL + total_acked evs < 2 ^ 64 ->
      exists path',
        deliver_all cbrt_u64 pacing_of kCubeFactor
          (snd (picoquic_cubic_init PICOQUIC_CWIN_INITIAL true path_x))
          (firstn k evs)
        = Some path'
        /\ cwin path' = PICOQUIC_CWIN_INITIAL + total_acked (firstn k evs)
        /\ MIN_CWND PICOQUIC_CWIN_INITIAL <= cwin path')
  /\ (forall (path_x path' : picoquic_path_t pacing_data)
             (cu_state : picoquic_cubic_state_t)
             kCubeFactor notification rtt_measurement nb_bytes_acknowledged
             lost_packet_number current_time,
         congestion_alg_state path_x = Some cu_state ->
         is_loss notification = true ->
         picoquic_cubic_notify cbrt_u64 pacing_of kCubeFactor path_x notification
           rtt_measurement nb_bytes_acknowledged lost_packet_number current_time
         = Some path' ->
         F32.to_u64 (F32.mul (F32.of_Z (cwin path_x)) (Beta (total_stream_count path_x)))
         = Some (cwin path')).
Proof.
  split.
  - intros path_x kCubeFactor evs k Hinit Hq Hsum.
    pose proof (total_acked_firstn evs Hq k) as Hk.
    destruct (slow_start_quiet_run kCubeFactor (firstn k evs)
                (snd (picoquic_cubic_init PICOQUIC_CWIN_INITIAL true path_x))
                (mk_cubic_state picoquic_cubic_alg_slow_start 0 0 0 0 0 0))
      as (p' & Hrun & _ & Hcw); try reflexivity.
    + apply quiet_firstn. exact Hq.
    + simpl. exact Hinit.
    + simpl. lia.
    + exists p'. split; [exact Hrun|]. simpl in Hcw. unfold MIN_CWND. lia.
  - intros path_x path' cu_state kCubeFactor notification rtt nb lost now Hs Hloss Hn.
    apply (notify_loss_result _ _ _ _ _ _ _ _ _ Hs Hloss Hn).
Qed.

(** *** Growth under acknowledgements *)

(** What holds of the growth: an acknowledgement in congestion avoidance
    leaves [cwin] unchanged when the sender is application-limited, and
    otherwise does not lower it as long as the cubic target of this
    acknowledgement is not below the current window (and half the
    acknowledged bytes fit above the window in 64 bits). *)
Lemma ack_growth_when_target_not_below :
  forall (kCubeFactor : Z) (path_x path' : picoquic_path_t pacing_data)
         (cu_state : picoquic_cubic_state_t)
         (rtt_measurement nb_bytes_acknowledged lost_packet_number current_time : Z),
    congestion_alg_state path_x = Some cu_state ->
    alg_state cu_state = picoquic_cubic_alg_congestion_avoidance ->
    0 <= nb_bytes_acknowledged ->
    0 <= cwin path_x ->
    cwin path_x + nb_bytes_acknowledged / 2 < 2 ^ 64 ->
    picoquic_cubic_notify cbrt_u64 pacing_of kCubeFactor path_x
      picoquic_congestion_notification_acknowledgement
      rtt_measurement nb_bytes_acknowledged lost_packet_number current_time
    = Some path' ->
    (bytes_in_transit path_x < cwin path_x -> cwin path' = cwin path_x)
    /\ (cwin path_x <= bytes_in_transit path_x ->
        let s1 := start_epoch cbrt_u64 kCubeFactor path_x cu_state current_time in
        cwin path_x <= cubic_target s1 (elapsed_time current_time (epoch_start_time s1)) ->
        cwin path_x <= cwin path').
Proof.
  intros kCubeFactor path_x path' cu_state rtt nb lost now Hs Ha Hnb Hc Hfit.
  unfold picoquic_cubic_notify. rewrite Hs, Ha.
  unfold picoquic_cubic_process_ack. rewrite Hs.
  destruct (Z.ltb_spec (bytes_in_transit path_x) (cwin path_x)) as [Hlim|Hfull].
  - cbn [bind]. intros [= <-]. split; [intros _; reflexivity|lia].
  - set (s1 := start_epoch cbrt_u64 kCubeFactor path_x cu_state now).
    destruct (nr_update _ nb (estimated_nr_cwnd s1)) as [est|]; [|discriminate].
    cbn [bind]. intros [= <-]. split; [lia|].
    intros _ Htarget.
    cbn [cwin picoquic_update_pacing_data set_cwin set_state].
    assert (Hg : cwin path_x
                 <= growth_limit path_x nb
                      (cubic_target s1 (elapsed_time now (epoch_start_time s1)))).
    { unfold growth_limit.
      assert (Hdiv : 0 <= nb / 2) by (apply Z.div_pos; lia).
      rewrite u64_small by (unfold C.UINT64_MOD; lia).
      destruct (_ <? _); lia. }
    destruct (Z.ltb_spec (growth_limit path_x nb
                 (cubic_target s1 (elapsed_time now (epoch_start_time s1)))) est); lia.
Qed.

(** *** The multiplicative decrease *)

Lemma process_loss_backoff (path_x : picoquic_path_t pacing_data)
    (cu_state : picoquic_cubic_state_t) :
  congestion_alg_state path_x = Some cu_state ->
  0 <= cwin path_x < 2 ^ 64 ->
  backoff_ok (Beta (total_stream_count path_x)) = true ->
  backoff_ok (BetaLastMax (total_stream_count path_x)) = true ->
  exists path' cu_state',
    picoquic_cubic_process_loss path_x = Some path'
    /\ congestion_alg_state path' = Some cu_state'
    /\ 0 <= cwin path' <= cwin path_x
    /\ epoch_start_time cu_state' = 0
    /\ alg_state cu_state' = alg_state cu_state.
Proof.
  intros Hs Hc Hb Hl.
  destruct (backoff_ok_inv _ Hb) as (mb & Hbeta & Hmb).
  destruct (backoff_ok_inv _ Hl) as (ml & Hlast & Hml).
  destruct (mul_backoff_le (cwin path_x) mb Hc Hmb) as (w & Hw & Hwc).
  destruct (mul_backoff_le (cwin path_x) ml Hc Hml) as (w2 & Hw2 & _).
  unfold picoquic_cubic_process_loss. rewrite Hs, Hbeta, Hlast, Hw.
  rewrite mul_comm, Hw2.
  destruct (_ <? _); cbn [bind]; eexists; eexists;
    (split; [reflexivity|]); (split; [reflexivity|]);
    cbn [cwin set_cwin epoch_start_time alg_state]; repeat split; lia.
Qed.

(** For a stream count from 1 to 16384 a Repeat or Timeout event
    processed in congestion avoidance is defined, does not raise [cwin]
    and leaves [epoch_start_time] at 0. *)
Lemma loss_in_congestion_avoidance :
  forall (kCubeFactor : Z) (path_x : picoquic_path_t pacing_data)
         (cu_state : picoquic_cubic_state_t)
         notification rtt_measurement nb_bytes_acknowledged lost_packet_number
         current_time,
    congestion_alg_state path_x = Some cu_state ->
    alg_state cu_state = picoquic_cubic_alg_congestion_avoidance ->
    is_loss notification = true ->
    0 <= cwin path_x < 2 ^ 64 ->
    1 <= total_stream_count path_x <= MAX_CHECKED_STREAMS ->
    exists path' cu_state',
      picoquic_cubic_notify cbrt_u64 pacing_of kCubeFactor path_x notification
        rtt_measurement nb_bytes_acknowledged lost_packet_number current_time
      = Some path'
      /\ congestion_alg_state path' = Some cu_state'
      /\ cwin path' <= cwin path_x
      /\ epoch_start_time cu_state' = 0.
Proof.
  intros kCubeFactor path_x cu_state notification rtt nb lost now Hs Ha Hloss Hc Hn.
  destruct (backoff_ok_streams _ Hn) as [Hb Hl].
  destruct (process_loss_backoff path_x cu_state Hs Hc Hb Hl)
    as (p' & s' & Hpl & Hs' & Hc' & He' & _).
  unfold picoquic_cubic_notify. rewrite Hs, Ha.
  destruct notification; try discriminate Hloss;
    rewrite Hpl; cbn [bind]; exists (picoquic_update_pacing_data pacing_of p'), s';
    (split; [reflexivity|]); (split; [exact Hs'|]); (split; [|exact He']);
    cbn [cwin picoquic_update_pacing_data]; lia.
Qed.

(** *** The divisor of the New-Reno update *)

Lemma start_epoch_estimate (kCubeFactor : Z) (path_x : picoquic_path_t pacing_data)
      (cu_state : picoquic_cubic_state_t) (current_time : Z) :
  let s1 := start_epoch cbrt_u64 kCubeFactor path_x cu_state current_time in
  (epoch_start_time cu_state = 0 -> estimated_nr_cwnd s1 = cwin path_x)
  /\ (epoch_start_time cu_state <> 0 -> estimated_nr_cwnd s1 = estimated_nr_cwnd cu_state).
Proof.
  unfold start_epoch.
  destruct (Z.eqb_spec (epoch_start_time cu_state) 0) as [H0|Hn0].
  - split; [intros _|intros H; contradiction].
    destruct (_ <=? _); reflexivity.
  - split; [intros H; contradiction|reflexivity].
Qed.

Lemma growth_limit_range (path_x : picoquic_path_t pacing_data) (nb target : Z) :
  0 <= target < 2 ^ 64 -> 0 <= growth_limit path_x nb target < 2 ^ 64.
Proof.
  intros Ht. unfold growth_limit.
  pose proof (u64_range (cwin path_x + nb / 2)) as Hl. unfold C.UINT64_MOD in Hl.
  destruct (_ <? _); lia.
Qed.

Lemma cubic_target_range (s : picoquic_cubic_state_t) (elapsed : Z) :
  0 <= cubic_target s elapsed < 2 ^ 64.
Proof. unfold cubic_target. destruct (_ <? _); apply u64_range. Qed.

(** C10, amended. At the New-Reno update the divisor [estimated_nr_cwnd]
    is the path's [cwin] when this acknowledgement (re)starts the epoch,
    and otherwise the value that the previous update of the epoch left.
    If [cwin] is at least 1 at the epoch start (and the estimate left by
    a running epoch is at least 1) the divisor is at least 1, and when
    the update is defined it leaves an estimate and a window that are
    again at least 1. *)
Theorem new_reno_divisor :
  forall (kCubeFactor : Z) (path_x : picoquic_path_t pacing_data)
         (cu_state : picoquic_cubic_state_t)
         (current_time nb_bytes_acknowledged : Z),
    congestion_alg_state path_x = Some cu_state ->
    0 <= nb_bytes_acknowledged ->
    (epoch_start_time cu_state = 0 -> 1 <= cwin path_x < 2 ^ 64) ->
    (epoch_start_time cu_state <> 0 -> 1 <= estimated_nr_cwnd cu_state < 2 ^ 64) ->
    cwin path_x <= bytes_in_transit path_x ->
    let s1 := start_epoch cbrt_u64 kCubeFactor path_x cu_state current_time in
    (epoch_start_time cu_state = 0 -> estimated_nr_cwnd s1 = cwin path_x)
    /\ (epoch_start_time cu_state <> 0 -> estimated_nr_cwnd s1 = estimated_nr_cwnd cu_state)
    /\ 1 <= estimated_nr_cwnd s1
    /\ (forall path',
           picoquic_cubic_process_ack cbrt_u64 kCubeFactor path_x current_time
             nb_bytes_acknowledged
           = Some path' ->
           exists cu_state',
             congestion_alg_state path' = Some cu_state'
             /\ nr_update (total_stream_count path_x) nb_bytes_acknowledged
                          (estimated_nr_cwnd s1)
                = Some (estimated_nr_cwnd cu_state')
             /\ 1 <= estimated_nr_cwnd cu_state' < 2 ^ 64
             /\ 1 <= cwin path' < 2 ^ 64).
Proof.
  intros kCubeFactor path_x cu_state now nb Hs Hnb Hc Hest Hfull s1.
  destruct (start_epoch_estimate kCubeFactor path_x cu_state now) as [H0 Hn0].
  fold s1 in H0, Hn0.
  assert (Hdiv : 1 <= estimated_nr_cwnd s1 < 2 ^ 64).
  { destruct (Z.eq_dec (epoch_start_time cu_state) 0) as [E|E].
    - rewrite (H0 E). exact (Hc E).
    - rewrite (Hn0 E). exact (Hest E). }
  split; [exact H0|]. split; [exact Hn0|]. split; [lia|].
  intros path'. unfold picoquic_cubic_process_ack. rewrite Hs.
  destruct (Z.ltb_spec (bytes_in_transit path_x) (cwin path_x)) as [Hlim|_]; [lia|].
  fold s1.
  destruct (nr_update (total_stream_count path_x) nb (estimated_nr_cwnd s1))
    as [est|] eqn:Hup; [|discriminate].
  cbn [bind]. intros [= <-].
  pose proof (nr_update_positive _ _ _ _ Hnb Hdiv Hup) as Hpos.
  pose proof (to_u64_range _ _ Hup) as Hrange.
  eexists. split; [reflexivity|].
  cbn [estimated_nr_cwnd cwin set_cwin set_state].
  split; [reflexivity|]. split; [lia|].
  pose proof (growth_limit_range path_x nb _
                (cubic_target_range s1 (elapsed_time now (epoch_start_time s1)))) as Hg.
  destruct (Z.ltb_spec (growth_limit path_x nb
               (cubic_target s1 (elapsed_time now (epoch_start_time s1)))) est); lia.
Qed.

End Properties.

(** ** Instances on concrete paths *)

(** C1, counterexample. With an initial window of 15360 bytes and one
    stream, a Timeout right after init leaves [cwin = 10752], below
    [MIN_CWND]. *)
Lemma cwin_below_minimum_after_timeout :
  cwin started_path = MIN_CWND 15360
  /\ option_map cwin (run [timeout_event 1 500000]) = Some 10752
  /\ 10752 < MIN_CWND 15360.
Proof. vm_compute. repeat split; reflexivity. Qed.

Lemma cwin_floor_until_first_loss_witness :
  (exists path',
      deliver_all icbrt no_pacing kCubeFactor_init started_path
                  (firstn 2 [ack_event 0 0 1 1500 1000; ack_event 0 0 1 1500 2000])
      = Some path'
      /\ cwin path' = 15360 + 3000
      /\ MIN_CWND 15360 <= cwin path')
  /\ F32.to_u64 (F32.mul (F32.of_Z (cwin busy_path)) (Beta (total_stream_count busy_path)))
     = Some 14000.
Proof.
  split.
  - apply (proj1 (cwin_floor_until_first_loss 15360 icbrt unit no_pacing)).
    + lia.
    + repeat constructor; simpl; lia.
    + vm_compute. reflexivity.
  - apply (proj2 (cwin_floor_until_first_loss 15360 icbrt unit no_pacing)
             busy_path
             (picoquic_update_pacing_data no_pacing
                (mk_path 14000 20000 30000 1
                   (Some (mk_cubic_state picoquic_cubic_alg_congestion_avoidance
                                         0 18000 17000 2037 25000 19000)) tt))
             avoidance_state kCubeFactor_init
             picoquic_congestion_notification_timeout 0 0 0 1003000);
      reflexivity.
Defined.

(** C6. After init and a Timeout, an acknowledgement of 12000 bytes
    starts an epoch and raises [cwin] from 10752 to 16752.  The next
    acknowledgement, 21.538 ms later and with no loss in between, has an
    elapsed time of 41538 (microseconds, not the 42 units of 2^-10 s that
    the comment of line 216 announces) and an offset of 39501, for which
    the 64-bit product of the cube wraps: [Δ] is 870, the target 16230,
    and [cwin] falls to 16230. *)
Theorem cwin_shrinks_without_loss :
  option_map cwin (run [timeout_event 1 500000]) = Some 10752
  /\ option_map cwin (run [timeout_event 1 500000; growing_ack]) = Some 16752
  /\ elapsed_time 1021538 980000 = 41538
  /\ cubic_offset 2037 41538 = 39501
  /\ 2 ^ 64 <= kCubeCongestionWindowScale * 39501 * 39501 * 39501 * DEFAULT_TCP_MSS
  /\ delta_congestion_window 39501 = 870
  /\ option_map cwin (run [timeout_event 1 500000; growing_ack; late_ack]) = Some 16230
  /\ 16230 < 16752.
Proof. vm_compute. repeat split; reflexivity || congruence. Qed.

Lemma ack_growth_when_target_not_below_witness :
  cwin busy_path <= cwin busy_path_after_ack.
Proof.
  refine (proj2 (ack_growth_when_target_not_below icbrt unit no_pacing kCubeFactor_init
                   busy_path busy_path_after_ack avoidance_state 0 3000 0 1003000
                   _ _ _ _ _ _) _ _).
  - reflexivity.
  - reflexivity.
  - lia.
  - simpl. lia.
  - simpl. lia.
  - vm_compute. reflexivity.
  - simpl. lia.
  - vm_compute. congruence.
Defined.

(** C7. Init, a Timeout and an acknowledgement leave a window of
    [2^24 + 3] bytes in congestion avoidance; with [2^25] streams the
    backoff factor [Beta] is [1.0f], the conversion of the window to
    [float] rounds it up, and a Timeout raises [cwin] to [2^24 + 4].
    [Beta] is still below [1.0f] for [2^23] streams and is [1.0f] for
    [2^23 + 1]. *)
Theorem cwin_grows_on_timeout_with_many_streams :
  option_map cwin (run [timeout_event 1 500000; odd_ack]) = Some 16777219
  /\ option_map cwin
       (run [timeout_event 1 500000; odd_ack; timeout_event 33554432 1100000])
     = Some 16777220
  /\ Beta 33554432 = S754_finite false 8388608 (-23)
  /\ 16777219 < 16777220
  /\ Beta 8388608 = S754_finite false 16777215 (-24)
  /\ Beta 8388609 = S754_finite false 8388608 (-23).
Proof. vm_compute. repeat split; reflexivity. Qed.

Lemma loss_in_congestion_avoidance_witness :
  exists path' cu_state',
    picoquic_cubic_notify icbrt no_pacing kCubeFactor_init busy_path
                          picoquic_congestion_notification_timeout 0 0 0 1003000
    = Some path'
    /\ congestion_alg_state path' = Some cu_state'
    /\ cwin path' <= cwin busy_path
    /\ epoch_start_time cu_state' = 0.
Proof.
  apply (loss_in_congestion_avoidance icbrt unit no_pacing kCubeFactor_init busy_path
           avoidance_state).
  - reflexivity.
  - reflexivity.
  - reflexivity.
  - simpl. lia.
  - simpl. unfold MAX_CHECKED_STREAMS. lia.
Defined.

(** C10, counterexample. The Timeout leaves [cwin = 10752]; the first
    acknowledgement starts an epoch that captures it and leaves an
    estimate of 11974; the second acknowledgement reaches the New-Reno
    update of the same epoch and divides by 11974, not by the window
    captured at the epoch start. *)
Lemma divisor_differs_from_epoch_cwin :
  option_map cwin (run [timeout_event 1 500000]) = Some 10752
  /\ run [timeout_event 1 500000; first_ack] = Some epoch_path
  /\ epoch_start_time epoch_state <> 0
  /\ cwin (transport_view epoch_path second_ack)
     <= bytes_in_transit (transport_view epoch_path second_ack)
  /\ estimated_nr_cwnd
       (start_epoch icbrt kCubeFactor_init (transport_view epoch_path second_ack)
                    epoch_state (ev_current_time second_ack))
     = 11974
  /\ 11974 <> 10752.
Proof. vm_compute. repeat split; congruence. Qed.

Lemma new_reno_divisor_witness :
  estimated_nr_cwnd (start_epoch icbrt kCubeFactor_init busy_path avoidance_state 1003000)
  = estimated_nr_cwnd avoidance_state
  /\ 1 <= estimated_nr_cwnd
            (start_epoch icbrt kCubeFactor_init busy_path avoidance_state 1003000).
Proof.
  destruct (new_reno_divisor icbrt unit kCubeFactor_init busy_path avoidance_state
              1003000 3000) as (_ & H2 & H3 & _).
  - reflexivity.
  - lia.
  - simpl. intros H. discriminate H.
  - intros _. simpl. lia.
  - simpl. lia.
  - split; [apply H2; simpl; lia|exact H3].
Defined.

Lemma process_ack_application_limited_witness :
  exists path' cu_state',
    picoquic_cubic_process_ack icbrt kCubeFactor_init limited_path 2000000 3000 = Some path'
    /\ congestion_alg_state path' = Some cu_state'
    /\ epoch_start_time cu_state' = 0
    /\ cwin path' = 20000.
Proof.
  destruct (process_ack_application_limited icbrt unit kCubeFactor_init limited_path
              avoidance_state 2000000 3000)
    as (path' & cu_state' & H1 & H2 & H3 & H4 & _).
  - reflexivity.
  - simpl. lia.
  - exists path', cu_state'. repeat split; assumption.
Defined.

Lemma scaling_primitives_zero_streams_witness :
  Beta 0 = S754_infinity false
  /\ BetaLastMax 0 = S754_infinity false
  /\ Alpha 0 = S754_nan
  /\ picoquic_cubic_process_loss no_stream_path = None.
Proof.
  apply (scaling_primitives_zero_streams unit no_stream_path avoidance_state);
    reflexivity.
Defined.

(** ** More of the controller *)

(** *** Lines 220-232 on values that do not wrap *)

Lemma to_int64_small (z : Z) : - 2 ^ 63 <= z < 2 ^ 63 -> C.to_int64 z = z.
Proof. intros H. unfold C.to_int64. rewrite Z.mod_small by lia. lia. Qed.

Lemma to_int_small (z : Z) : - 2 ^ 31 <= z < 2 ^ 31 -> C.to_int z = z.
Proof. intros H. unfold C.to_int. rewrite Z.mod_small by lia. lia. Qed.

Lemma to_int_range (z : Z) : - 2 ^ 31 <= C.to_int z < 2 ^ 31.
Proof.
  unfold C.to_int.
  pose proof (Z.mod_pos_bound (z + 2 ^ 31) (2 ^ 32) ltac:(lia)). lia.
Qed.

Lemma cubic_offset_small (time_of_origin_ elapsed : Z) :
  0 <= time_of_origin_ < 2 ^ 63 ->
  - 2 ^ 63 <= elapsed < 2 ^ 63 ->
  Z.abs (time_of_origin_ - elapsed) < 2 ^ 31 ->
  cubic_offset time_of_origin_ elapsed = Z.abs (time_of_origin_ - elapsed).
Proof.
  intros Ht He Hd. unfold cubic_offset, C.abs.
  rewrite (to_int64_small time_of_origin_) by lia.
  rewrite (to_int64_small (time_of_origin_ - elapsed)) by lia.
  rewrite (to_int_small (time_of_origin_ - elapsed)) by lia.
  rewrite to_int_small by lia.
  apply u64_small. unfold C.UINT64_MOD. lia.
Qed.

Lemma labs_small (z : Z) : - 2 ^ 63 < z < 2 ^ 63 -> C.labs z = Z.abs z.
Proof.
  intros H. unfold C.labs. rewrite (to_int64_small z) by lia.
  apply to_int64_small. lia.
Qed.

(** X5. As long as the distance between the elapsed time and
    [time_of_origin] is below [2^31], the offset of line 224 is that
    distance, whether [abs] is the [int abs(int)] of C or the
    [long abs(long)] that a C++ build selects for its [int64_t]
    argument. *)
Theorem cubic_offset_is_the_distance :
  forall (time_of_origin_ elapsed : Z),
    0 <= time_of_origin_ < 2 ^ 63 ->
    - 2 ^ 63 <= elapsed < 2 ^ 63 ->
    Z.abs (time_of_origin_ - elapsed) < 2 ^ 31 ->
    cubic_offset time_of_origin_ elapsed = Z.abs (time_of_origin_ - elapsed)
    /\ cubic_offset_long time_of_origin_ elapsed = Z.abs (time_of_origin_ - elapsed).
Proof.
  intros too elapsed Ht He Hd. split; [apply cubic_offset_small; assumption|].
  unfold cubic_offset_long.
  rewrite (to_int64_small too) by lia.
  rewrite (to_int64_small (too - elapsed)) by lia.
  rewrite labs_small by lia.
  apply u64_small. unfold C.UINT64_MOD. lia.
Qed.

Lemma delta_no_wrap (offset : Z) :
  0 <= offset ->
  kCubeCongestionWindowScale * offset * offset * offset * DEFAULT_TCP_MSS < 2 ^ 64 ->
  delta_congestion_window offset
  = kCubeCongestionWindowScale * offset * offset * offset * DEFAULT_TCP_MSS / 2 ^ 40.
Proof.
  intros Ho Hp. unfold delta_congestion_window, kCubeScale.
  unfold kCubeCongestionWindowScale, DEFAULT_TCP_MSS in *.
  rewrite Z.shiftr_div_pow2 by lia.
  destruct (Z.eq_dec offset 0) as [->|Hne]; [reflexivity|].
  assert (H1 : 1 <= offset) by lia.
  assert (H2 : 1 <= offset * offset) by nia.
  assert (H3 : 1 <= offset * offset * offset) by nia.
  assert (Ha : 410 * offset < 2 ^ 64) by nia.
  assert (Hb : 410 * offset * offset < 2 ^ 64) by nia.
  assert (Hc : 410 * offset * offset * offset < 2 ^ 64) by nia.
  rewrite (u64_small (410 * offset)) by (unfold C.UINT64_MOD; lia).
  rewrite (u64_small (410 * offset * offset)) by (unfold C.UINT64_MOD; nia).
  rewrite (u64_small (410 * offset * offset * offset)) by (unfold C.UINT64_MOD; nia).
  rewrite u64_small by (unfold C.UINT64_MOD; nia).
  reflexivity.
Qed.

Lemma cube_le (a b : Z) : 0 <= a <= b -> a * a * a <= b * b * b.
Proof.
  intros H. assert (a * a <= b * b) by nia.
  assert (0 <= a * a) by nia. nia.
Qed.

(** X6. Up to an offset of 31351 the product of line 227 fits 64 bits:
    [Δ] is the quotient of [410 · offset^3 · 1460] by [2^40] and grows
    with the offset.  From 31352 on the product wraps, and [Δ] is in any
    case below [2^24]. *)
Theorem delta_below_the_wrap :
  (forall offset,
      0 <= offset <= 31351 ->
      delta_congestion_window offset
      = kCubeCongestionWindowScale * offset * offset * offset * DEFAULT_TCP_MSS / 2 ^ 40)
  /\ (forall offset offset',
         0 <= offset <= offset' -> offset' <= 31351 ->
         delta_congestion_window offset <= delta_congestion_window offset')
  /\ 2 ^ 64 <= kCubeCongestionWindowScale * 31352 * 31352 * 31352 * DEFAULT_TCP_MSS
  /\ delta_congestion_window 31352 < delta_congestion_window 31351
  /\ (forall offset, 0 <= delta_congestion_window offset < 2 ^ 24).
Proof.
  assert (Hfit : forall o, 0 <= o <= 31351 ->
            kCubeCongestionWindowScale * o * o * o * DEFAULT_TCP_MSS < 2 ^ 64).
  { intros o Ho. pose proof (cube_le o 31351 Ho) as Hc.
    unfold kCubeCongestionWindowScale, DEFAULT_TCP_MSS.
    lia. }
  split; [|split; [|split; [|split]]].
  - intros o Ho. apply delta_no_wrap; [lia|apply Hfit; exact Ho].
  - intros o o' Ho Ho'.
    rewrite !delta_no_wrap by (try apply Hfit; lia).
    apply Z.div_le_mono; [lia|].
    pose proof (cube_le o o' Ho).
    unfold kCubeCongestionWindowScale, DEFAULT_TCP_MSS. lia.
  - vm_compute. congruence.
  - vm_compute. reflexivity.
  - apply delta_congestion_window_range.
Qed.

Lemma icbrt_bits_below (i : nat) :
  forall r x, 0 <= r -> r ^ 3 <= x ->
    0 <= icbrt_bits i r x /\ icbrt_bits i r x ^ 3 <= x.
Proof.
  induction i as [|i IH]; intros r x Hr Hx; cbn [icbrt_bits].
  - destruct (Z.leb_spec ((r + 2 ^ Z.of_nat 0) ^ 3) x); split; lia.
  - assert (Hp : 0 < 2 ^ Z.of_nat (S i)) by (apply Z.pow_pos_nonneg; lia).
    destruct (Z.leb_spec ((r + 2 ^ Z.of_nat (S i)) ^ 3) x); apply IH; lia.
Qed.

Lemma icbrt_below (x : Z) : 0 <= x -> 0 <= icbrt x /\ icbrt x ^ 3 <= x.
Proof. intros Hx. apply icbrt_bits_below; [lia|simpl; lia]. Qed.

Lemma u64_of_int64 (e : Z) :
  - 2 ^ 63 <= e < 2 ^ 63 ->
  (0 <= e -> C.u64 e = e) /\ (e < 0 -> C.u64 e = e + 2 ^ 64).
Proof.
  intros He. unfold C.u64, C.UINT64_MOD. split; intros H.
  - apply Z.mod_small. lia.
  - symmetry. apply (Z.mod_unique _ _ (-1)); lia.
Qed.

(** The time-to-origin that an epoch start stores: when the stored root
    is within the margin of the real cube root, the window offset at any
    time offset up to it does not exceed the distance [d] between the
    last maximum and the window. *)
Lemma delta_le_distance (too o d : Z) :
  0 <= d < 2 ^ 64 -> 0 <= o <= too ->
  root_within too (C.u64 (kCubeFactor_init * C.u64 d)) ->
  too < 2 ^ 22 /\ 0 <= delta_congestion_window o <= d.
Proof.
  intros Hd Ho [Ht0 Ht3].
  replace (too ^ 3) with (too * too * too) in Ht3 by ring.
  pose proof (u64_range (kCubeFactor_init * C.u64 d)) as Hx.
  unfold C.UINT64_MOD in Hx.
  set (x := C.u64 (kCubeFactor_init * C.u64 d)) in *.
  assert (Hq : 0 <= x / 2 ^ 24 /\ 2 ^ 24 * (x / 2 ^ 24) <= x).
  { split; [apply Z.div_pos; lia|apply Z.mul_div_le; lia]. }
  assert (Htoo : too < 2 ^ 22).
  { destruct (Z.lt_ge_cases too (2 ^ 22)) as [|Hbig]; [assumption|].
    assert (2 ^ 22 * 2 ^ 22 * 2 ^ 22 <= too * too * too) by (apply cube_le; lia).
    lia. }
  split; [exact Htoo|].
  pose proof (delta_congestion_window_range o) as Hr.
  split; [lia|].
  destruct (Z.lt_ge_cases d (2 ^ 24)) as [Hsmall|Hbig]; [|lia].
  assert (Hxd : x = 1836805 * d).
  { unfold x. change kCubeFactor_init with 1836805.
    rewrite (u64_small d) by (unfold C.UINT64_MOD; lia).
    apply u64_small. unfold C.UINT64_MOD. lia. }
  pose proof (cube_le o too Ho) as Hcube.
  assert (Hprod : 598600 * (o * o * o) <= 2 ^ 40 * d) by lia.
  rewrite delta_no_wrap;
    unfold kCubeCongestionWindowScale, DEFAULT_TCP_MSS; try lia.
  apply Z.div_le_upper_bound; lia.
Qed.

(** The elapsed time that the acknowledgement starting an epoch
    computes is the minimal RTT. *)
Lemma elapsed_time_first_ack (now rtt : Z) :
  0 <= rtt <= now -> now < 2 ^ 63 ->
  elapsed_time now (C.u64 (now - rtt)) = rtt.
Proof.
  intros Hr Hn. unfold elapsed_time.
  change (10 / MICROSEC_PER_SEC) with 0. rewrite Z.shiftl_0_r.
  rewrite (u64_small (now - rtt)) by (unfold C.UINT64_MOD; lia).
  replace (now - (now - rtt)) with rtt by lia.
  rewrite u64_idem, u64_small by (unfold C.UINT64_MOD; lia).
  apply to_int64_small. lia.
Qed.

Section EpochProperties.

Variable cbrt_u64 : Z -> Z.
Variable pacing_data : Type.

(** X7. When the root that an epoch start stores is within the margin
    of the real cube root, the parameters of the epoch keep the
    subtraction of line 232 from wrapping: as long as the elapsed time
    has not passed [time_of_origin], the target is [origin_cwnd − Δ] and
    lies between the window captured at the epoch start and
    [origin_cwnd]. *)
Theorem epoch_target_does_not_wrap :
  forall (path_x : picoquic_path_t pacing_data) (cu_state : picoquic_cubic_state_t)
         (current_time elapsed : Z),
    epoch_start_time cu_state = 0 ->
    0 <= cwin path_x < 2 ^ 64 ->
    0 <= last_max_cwnd cu_state < 2 ^ 64 ->
    - 2 ^ 63 <= elapsed < 2 ^ 63 ->
    let s1 := start_epoch cbrt_u64 kCubeFactor_init path_x cu_state current_time in
    (cwin path_x < last_max_cwnd cu_state ->
     root_within (time_of_origin s1)
       (C.u64 (kCubeFactor_init * C.u64 (last_max_cwnd cu_state - cwin path_x)))) ->
    C.u64 elapsed <= time_of_origin s1 ->
    cubic_target s1 elapsed
    = origin_cwnd s1
      - delta_congestion_window (cubic_offset (time_of_origin s1) elapsed)
    /\ cwin path_x <= cubic_target s1 elapsed <= origin_cwnd s1.
Proof.
  intros path_x cu_state now elapsed Hep Hc Hm He s1.
  destruct (u64_of_int64 elapsed He) as [Hpos Hneg].
  unfold s1, start_epoch. rewrite Hep. cbn [Z.eqb].
  destruct (Z.leb_spec (last_max_cwnd cu_state) (cwin path_x)) as [Hle|Hgt];
    cbn [time_of_origin origin_cwnd]; intros Hroot Hel.
  - (* the epoch starts at its origin *)
    assert (E : elapsed = 0).
    { destruct (Z.lt_ge_cases elapsed 0) as [Hn|Hp]; [rewrite (Hneg Hn) in Hel|
        rewrite (Hpos Hp) in Hel]; lia. }
    subst elapsed. unfold cubic_target. cbn [time_of_origin origin_cwnd].
    change (cubic_offset 0 0) with 0. change (delta_congestion_window 0) with 0.
    change (0 <? C.u64 0) with false. cbv iota.
    rewrite Z.sub_0_r, u64_small by (unfold C.UINT64_MOD; lia). lia.
  - specialize (Hroot Hgt).
    set (d := last_max_cwnd cu_state - cwin path_x) in *.
    set (too := cbrt_u64 (C.u64 (kCubeFactor_init * C.u64 d))) in *.
    assert (Ht0 : 0 <= too) by (destruct Hroot; assumption).
    assert (Hel' : 0 <= elapsed <= too).
    { destruct (Z.lt_ge_cases elapsed 0) as [Hn|Hp]; [rewrite (Hneg Hn) in Hel|
        rewrite (Hpos Hp) in Hel]; [|lia].
      destruct (delta_le_distance too 0 d) as [Htoo _];
        [unfold d; lia|lia|exact Hroot|lia]. }
    destruct (delta_le_distance too (too - elapsed) d) as [Htoo Hdelta];
      [unfold d; lia|lia|exact Hroot|].
    unfold cubic_target. cbn [time_of_origin origin_cwnd].
    rewrite cubic_offset_small by lia. rewrite Z.abs_eq by lia.
    rewrite (Hpos ltac:(lia)).
    destruct (Z.ltb_spec too elapsed) as [Hlt|_]; [lia|].
    rewrite u64_small by (unfold C.UINT64_MOD, d in *; lia).
    unfold d in Hdelta. lia.
Qed.

End EpochProperties.

(** *** The New-Reno estimate *)

(** Conversion of an integer below [2^24]: exact. *)
Lemma of_Z_exact (c : Z) :
  1 <= c < 2 ^ 24 ->
  exists mc ec,
    F32.of_Z c = S754_finite false mc ec
    /\ 2 ^ 23 <= Z.pos mc < 2 ^ 24
    /\ -23 <= ec <= 0
    /\ Z.pos mc * 2 ^ (ec + 64) = c * 2 ^ 64.
Proof.
  intros Hc. destruct c as [|m|m]; try lia.
  unfold F32.of_Z, binary_normalize.
  set (d := Z.pos (digits2_pos m)).
  assert (Hd : 1 <= d <= 24).
  { split; [unfold d; lia|]. apply digits2_lt. lia. }
  destruct (binary_round_normal false m 0) as [[_ Hinf]|(m3 & e3 & Hr & Hm3 & He3 & Hex & _)];
    fold d; try lia.
  fold d in He3, Hex.
  destruct (Hex ltac:(lia)) as [He Hm].
  exists m3, e3. split; [exact Hr|]. split; [exact Hm3|]. split; [lia|].
  rewrite Hm, He.
  assert (H64 : 2 ^ 64 = 2 ^ (24 - d) * 2 ^ (0 + d - 24 + 64)).
  { rewrite <- pow2_split by lia. f_equal. lia. }
  rewrite H64. ring.
Qed.

(** Adding a non-negative float to a normal float [me · 2^ee] gives, when
    the sum converts to [uint64_t], at least every integer that the first
    operand reaches. *)
Lemma add_ge_operand (me : positive) (ee : Z) (x : F32.float) (c w : Z) :
  2 ^ 23 <= Z.pos me < 2 ^ 24 -> -23 <= ee ->
  c * 2 ^ 64 <= Z.pos me * 2 ^ (ee + 64) ->
  has_sign false x ->
  F32.to_u64 (F32.add (S754_finite false me ee) x) = Some w ->
  c <= w.
Proof.
  intros Hme Hee Hc Hx.
  assert (Hfin : forall m3 e3,
             ee <= e3 -> Z.pos me * 2 ^ (ee + 64) <= Z.pos m3 * 2 ^ (e3 + 64) ->
             F32.to_u64 (S754_finite false m3 e3) = Some w -> c <= w).
  { intros m3 e3 He3 Hv. simpl. destruct (_ <? _); [|discriminate].
    intros [= <-]. rewrite trunc_mag_scaled by lia.
    apply Z.div_le_lower_bound; lia. }
  destruct x as [s|s| |s mx ex]; simpl in Hx; subst.
  - apply Hfin; lia.
  - discriminate.
  - discriminate.
  - unfold F32.add, SFadd.
    set (ez := Z.min ee ex).
    change (cond_Zopp false ?z) with z.
    destruct (shl_align_spec me ee ez) as [Ha1 Ha2].
    destruct (shl_align me ee ez) as [a ea]. cbn [fst snd] in *.
    destruct (shl_align mx ex ez) as [b eb]. cbn [fst snd] in *.
    change (Z.pos a + Z.pos b) with (Z.pos (a + b)).
    unfold binary_normalize.
    set (j := ee - ez).
    assert (Hj : 0 <= j) by (unfold j, ez; lia).
    assert (Hpj : 0 < 2 ^ j) by (apply Z.pow_pos_nonneg; lia).
    assert (Ha : Z.pos a = Z.pos me * 2 ^ j).
    { destruct (Z.lt_ge_cases ez ee) as [Hlt|Hge].
      - destruct (Ha1 Hlt) as [-> _]. reflexivity.
      - assert (Heq : j = 0) by (unfold j, ez in *; lia).
        injection (Ha2 ltac:(lia)) as -> _. rewrite Heq. simpl (2 ^ 0). lia. }
    set (d := Z.pos (digits2_pos (a + b))).
    assert (Hd : 23 + j + 1 <= d).
    { apply digits2_ge; [lia|]. rewrite Pos2Z.inj_add, Ha, pow2_split by lia. nia. }
    destruct (binary_round_normal false (a + b) ez)
      as [[Hr _]|(m3 & e3 & Hr & Hm3 & He3 & _ & Hv)];
      fold d; [unfold j in *; lia| |]; rewrite Hr.
    + discriminate.
    + fold d in He3, Hv. specialize (Hv ltac:(lia)).
      set (k := d - 24) in *.
      assert (Hk : 0 < 2 ^ k) by (apply Z.pow_pos_nonneg; unfold k; lia).
      set (q := Z.pos (a + b) / 2 ^ k) in *.
      (* the truncated sum, put back at the operand's exponent, reaches
         the operand's mantissa *)
      assert (Hq : Z.pos me <= q * 2 ^ (k - j)).
      { destruct (Z.eq_dec k j) as [E|NE].
        - assert (Z.pos me <= q);
            [|replace (k - j) with 0 by lia; simpl (2 ^ 0); lia].
          unfold q. apply Z.div_le_lower_bound; [lia|].
          rewrite Pos2Z.inj_add, Ha, E. lia.
        - assert (Hkj : j < k) by (unfold k; lia).
          pose proof (digits2_bounds (a + b)) as Hb. fold d in Hb.
          assert (H23 : 2 ^ 23 <= q).
          { unfold q. apply Z.div_le_lower_bound; [lia|].
            rewrite Z.mul_comm, <- pow2_split by (unfold k; lia).
            replace (23 + k) with (d - 1) by (unfold k; lia). lia. }
          assert (2 ^ 1 <= 2 ^ (k - j)) by (apply Z.pow_le_mono_r; lia).
          simpl (2 ^ 1) in *. nia. }
      apply Hfin; [unfold k, j in *; lia|].
      assert (He : e3 = ee + (k - j) \/ e3 = ee + (k - j) + 1)
        by (unfold k, j in *; lia).
      assert (Hp1 : 0 < 2 ^ (ee + 64)) by (apply Z.pow_pos_nonneg; lia).
      assert (Hp2 : 0 < 2 ^ (k - j)) by (apply Z.pow_pos_nonneg; unfold k; lia).
      destruct He as [-> | ->].
      * replace (ee + (k - j) - (ez + d - 24)) with 0 in Hv by (unfold k, j; lia).
        simpl (2 ^ 0) in Hv.
        replace (ee + (k - j) + 64) with ((ee + 64) + (k - j)) by lia.
        rewrite (pow2_split (ee + 64) (k - j)) by (unfold k; lia).
        try rewrite Z.mul_1_r in Hv.
        apply Z.le_trans with (q * 2 ^ (k - j) * 2 ^ (ee + 64)).
        { apply Z.mul_le_mono_nonneg_r; lia. }
        replace (Z.pos m3 * (2 ^ (ee + 64) * 2 ^ (k - j)))
          with (Z.pos m3 * 2 ^ (k - j) * 2 ^ (ee + 64)) by ring.
        apply Z.mul_le_mono_nonneg_r; [lia|].
        apply Z.mul_le_mono_nonneg_r; lia.
      * replace (ee + (k - j) + 1 - (ez + d - 24)) with 1 in Hv by (unfold k, j; lia).
        simpl (2 ^ 1) in Hv.
        replace (ee + (k - j) + 1 + 64) with ((ee + 64) + (k - j) + 1) by lia.
        rewrite (pow2_split (ee + 64 + (k - j)) 1) by (unfold k; lia).
        rewrite (pow2_split (ee + 64) (k - j)) by (unfold k; lia).
        change (2 ^ 1) with 2 in *.
        apply Z.le_trans with (q * 2 ^ (k - j) * 2 ^ (ee + 64)).
        { apply Z.mul_le_mono_nonneg_r; lia. }
        replace (Z.pos m3 * (2 ^ (ee + 64) * 2 ^ (k - j) * 2))
          with (Z.pos m3 * 2 * 2 ^ (k - j) * 2 ^ (ee + 64)) by ring.
        apply Z.mul_le_mono_nonneg_r; [lia|].
        apply Z.mul_le_mono_nonneg_r; lia.
Qed.

(** X8. Below [2^24] bytes the New-Reno estimate never decreases; the
    bound is sharp, an estimate of [2^24 + 1] bytes is rounded in the
    conversion to [float] and comes back as [2^24]. *)
Theorem new_reno_estimate_monotone :
  (forall n nb est est',
      0 <= nb -> 1 <= est < 2 ^ 24 ->
      nr_update n nb est = Some est' -> est <= est')
  /\ nr_update 1 1000 (2 ^ 24 + 1) = Some (2 ^ 24).
Proof.
  split; [|vm_compute; reflexivity].
  intros n nb est est' Hnb Hest. unfold nr_update.
  destruct (of_Z_exact est Hest) as (me & ee & Hof & Hme & Hee & Hv).
  rewrite Hof. apply add_ge_operand; [lia|lia|lia|].
  rewrite <- Hof.
  change false with (xorb (xorb false (xorb false false)) false).
  apply div_sign.
  - apply mul_sign; [apply of_Z_sign; exact Hnb|].
    apply mul_sign; [apply Alpha_sign|apply of_Z_sign; unfold DEFAULT_TCP_MSS; lia].
  - apply of_Z_sign. lia.
Qed.

(** *** What an acknowledgement commits *)

Section GrowthProperties.

Variable cbrt_u64 : Z -> Z.
Variable pacing_data : Type.
Variable pacing_of : picoquic_path_t pacing_data -> pacing_data.

(** X9. What a processed acknowledgement commits in congestion
    avoidance when the window is full: the new window is the larger of
    the recorded target and the recorded New-Reno estimate, the target
    is capped by the window plus half the acknowledged bytes, the
    algorithm state and the last maximum are kept, a running epoch keeps
    its parameters and a new epoch takes the larger of the window and
    the last maximum as its origin. *)
Theorem ack_commits_target_or_estimate :
  forall (kCubeFactor : Z) (path_x path' : picoquic_path_t pacing_data)
         (cu_state : picoquic_cubic_state_t)
         (rtt_measurement nb_bytes_acknowledged lost_packet_number current_time : Z),
    congestion_alg_state path_x = Some cu_state ->
    alg_state cu_state = picoquic_cubic_alg_congestion_avoidance ->
    cwin path_x <= bytes_in_transit path_x ->
    picoquic_cubic_notify cbrt_u64 pacing_of kCubeFactor path_x
      picoquic_congestion_notification_acknowledgement
      rtt_measurement nb_bytes_acknowledged lost_packet_number current_time
    = Some path' ->
    exists cu_state',
      congestion_alg_state path' = Some cu_state'
      /\ cwin path' = Z.max (last_target_cwnd cu_state') (estimated_nr_cwnd cu_state')
      /\ last_target_cwnd cu_state' <= C.u64 (cwin path_x + nb_bytes_acknowledged / 2)
      /\ alg_state cu_state' = picoquic_cubic_alg_congestion_avoidance
      /\ last_max_cwnd cu_state' = last_max_cwnd cu_state
      /\ (epoch_start_time cu_state <> 0 ->
          epoch_start_time cu_state' = epoch_start_time cu_state
          /\ time_of_origin cu_state' = time_of_origin cu_state
          /\ origin_cwnd cu_state' = origin_cwnd cu_state)
      /\ (epoch_start_time cu_state = 0 ->
          epoch_start_time cu_state' = C.u64 (current_time - rtt_min path_x)
          /\ origin_cwnd cu_state' = Z.max (cwin path_x) (last_max_cwnd cu_state)).
Proof.
  intros kCubeFactor path_x path' cu_state rtt nb lost now Hs Ha Hfull.
  unfold picoquic_cubic_notify. rewrite Hs, Ha.
  unfold picoquic_cubic_process_ack. rewrite Hs.
  destruct (Z.ltb_spec (bytes_in_transit path_x) (cwin path_x)) as [Hlim|_]; [lia|].
  set (s1 := start_epoch cbrt_u64 kCubeFactor path_x cu_state now).
  destruct (nr_update _ nb (estimated_nr_cwnd s1)) as [est|]; [|discriminate].
  cbn [bind]. intros [= <-].
  eexists. split; [reflexivity|].
  cbn [cwin picoquic_update_pacing_data set_cwin set_state last_target_cwnd
       estimated_nr_cwnd alg_state last_max_cwnd epoch_start_time time_of_origin
       origin_cwnd].
  set (target := growth_limit path_x nb _).
  split; [destruct (Z.ltb_spec target est); lia|].
  split.
  { unfold target, growth_limit. cbv zeta. destruct (Z.ltb_spec (C.u64 (cwin path_x + nb / 2)) (cubic_target s1 (elapsed_time now (epoch_start_time s1)))); lia. }
  unfold s1, start_epoch.
  destruct (Z.eqb_spec (epoch_start_time cu_state) 0) as [E|NE].
  - destruct (Z.leb_spec (last_max_cwnd cu_state) (cwin path_x));
      cbn [alg_state last_max_cwnd epoch_start_time time_of_origin origin_cwnd];
      (split; [exact Ha|]); (split; [reflexivity|]);
      (split; [intros NE; contradiction|]); intros _; (split; [reflexivity|lia]).
  - split; [exact Ha|]. split; [reflexivity|].
    split; [intros _; repeat split|intros E; contradiction].
Qed.

(** X10. An acknowledgement that starts an epoch and is processed (its
    New-Reno update is defined) never lowers the window, provided the
    root that it stores is within the margin of the real cube root and
    the clock, the minimal RTT and the sizes are in their usual
    ranges. *)
Theorem first_ack_of_epoch_keeps_window :
  forall (path_x path' : picoquic_path_t pacing_data)
         (cu_state : picoquic_cubic_state_t)
         (rtt_measurement nb_bytes_acknowledged lost_packet_number current_time : Z),
    (cwin path_x < last_max_cwnd cu_state ->
     root_within
       (cbrt_u64 (C.u64 (kCubeFactor_init * C.u64 (last_max_cwnd cu_state - cwin path_x))))
       (C.u64 (kCubeFactor_init * C.u64 (last_max_cwnd cu_state - cwin path_x)))) ->
    congestion_alg_state path_x = Some cu_state ->
    alg_state cu_state = picoquic_cubic_alg_congestion_avoidance ->
    epoch_start_time cu_state = 0 ->
    cwin path_x <= bytes_in_transit path_x ->
    0 <= cwin path_x < 2 ^ 63 ->
    0 <= last_max_cwnd cu_state < 2 ^ 63 ->
    0 <= rtt_min path_x <= current_time ->
    current_time < 2 ^ 63 ->
    rtt_min path_x < 2 ^ 31 ->
    0 <= nb_bytes_acknowledged < 2 ^ 63 ->
    picoquic_cubic_notify cbrt_u64 pacing_of kCubeFactor_init path_x
      picoquic_congestion_notification_acknowledgement
      rtt_measurement nb_bytes_acknowledged lost_packet_number current_time
    = Some path' ->
    cwin path_x <= cwin path'.
Proof.
  intros path_x path' cu_state rtt nb lost now Hroot Hs Ha Hep Hfull Hc Hm Hr Hn
         Hr31 Hnb Hnotify.
  assert (Hdiv : 0 <= nb / 2 < 2 ^ 63).
  { split; [apply Z.div_pos; lia|]. apply Z.div_lt_upper_bound; lia. }
  refine (proj2 (ack_growth_when_target_not_below cbrt_u64 pacing_data pacing_of
                   kCubeFactor_init path_x path' cu_state rtt nb lost now
                   Hs Ha _ _ _ Hnotify) Hfull _); try lia.
  cbv zeta. unfold start_epoch. rewrite Hep. cbn [Z.eqb].
  pose proof (delta_congestion_window_range) as Hdelta.
  destruct (Z.leb_spec (last_max_cwnd cu_state) (cwin path_x)) as [Hle|Hgt];
    cbn [epoch_start_time]; rewrite elapsed_time_first_ack by lia;
    unfold cubic_target; cbn [time_of_origin origin_cwnd];
    rewrite (u64_small (rtt_min path_x)) by (unfold C.UINT64_MOD; lia).
  - (* the epoch starts at its origin *)
    specialize (Hdelta (cubic_offset 0 (rtt_min path_x))).
    destruct (Z.ltb_spec 0 (rtt_min path_x)) as [Hpos|Hzero].
    + rewrite u64_small by (unfold C.UINT64_MOD; lia). lia.
    + replace (rtt_min path_x) with 0 by lia.
      change (cubic_offset 0 0) with 0. change (delta_congestion_window 0) with 0.
      rewrite Z.sub_0_r, u64_small by (unfold C.UINT64_MOD; lia). lia.
  - specialize (Hroot Hgt).
    set (d := last_max_cwnd cu_state - cwin path_x) in *.
    set (too := cbrt_u64 (C.u64 (kCubeFactor_init * C.u64 d))) in *.
    assert (Ht0 : 0 <= too) by (destruct Hroot; assumption).
    destruct (Z.ltb_spec too (rtt_min path_x)) as [Hafter|Hbefore].
    + specialize (Hdelta (cubic_offset too (rtt_min path_x))).
      rewrite u64_small by (unfold C.UINT64_MOD; lia). lia.
    + destruct (delta_le_distance too (too - rtt_min path_x) d) as [Htoo Hd];
        [unfold d; lia|lia|exact Hroot|].
      rewrite cubic_offset_small by lia.
      rewrite Z.abs_eq by lia.
      rewrite u64_small by (unfold C.UINT64_MOD, d in *; lia).
      unfold d in Hd. lia.
Qed.

End GrowthProperties.

(** *** The states that a run reaches *)



Section ReachableStates.

Variable PICOQUIC_CWIN_INITIAL : Z.
Variable cbrt_u64 : Z -> Z.
Variable pacing_data : Type.
Variable pacing_of : picoquic_path_t pacing_data -> pacing_data.









End ReachableStates.

Section AutomatonProperties.

Variable cbrt_u64 : Z -> Z.
Variable pacing_data : Type.
Variable pacing_of : picoquic_path_t pacing_data -> pacing_data.

(** *** The two-state automaton *)

Lemma process_ack_keeps_alg_state (kCubeFactor : Z)
      (path_x path' : picoquic_path_t pacing_data)
      (cu_state : picoquic_cubic_state_t) (current_time nb_bytes_acknowledged : Z) :
  congestion_alg_state path_x = Some cu_state ->
  picoquic_cubic_process_ack cbrt_u64 kCubeFactor path_x current_time
    nb_bytes_acknowledged = Some path' ->
  exists cu_state',
    congestion_alg_state path' = Some cu_state'
    /\ alg_state cu_state' = alg_state cu_state
    /\ last_max_cwnd cu_state' = last_max_cwnd cu_state.
Proof.
  intros Hs. unfold picoquic_cubic_process_ack. rewrite Hs.
  destruct (_ <? _).
  - intros [= <-]. eexists. split; [reflexivity|]. split; reflexivity.
  - destruct (nr_update _ _ _) as [est|]; [|discriminate].
    cbn [bind]. intros [= <-]. eexists. split; [reflexivity|].
    cbn [alg_state last_max_cwnd]. unfold start_epoch.
    destruct (_ =? _); [destruct (_ <=? _)|]; split; reflexivity.
Qed.

(** One notification on a path that holds a controller. *)
Lemma notify_automaton_step (kCubeFactor : Z)
      (path_x path' : picoquic_path_t pacing_data)
      (cu_state : picoquic_cubic_state_t) notification
      rtt_measurement nb_bytes_acknowledged lost_packet_number current_time :
  congestion_alg_state path_x = Some cu_state ->
  picoquic_cubic_notify cbrt_u64 pacing_of kCubeFactor path_x notification
    rtt_measurement nb_bytes_acknowledged lost_packet_number current_time
  = Some path' ->
  exists cu_state',
    congestion_alg_state path' = Some cu_state'
    /\ (alg_state cu_state = picoquic_cubic_alg_congestion_avoidance ->
        alg_state cu_state' = picoquic_cubic_alg_congestion_avoidance)
    /\ (alg_state cu_state' = picoquic_cubic_alg_slow_start -> cu_state' = cu_state).
Proof.
  intros Hs Hn.
  destruct (is_loss notification) eqn:Hloss.
  - destruct (notify_loss_result cbrt_u64 pacing_data pacing_of _ _ _ _ _ _ _ _ _ Hs Hloss Hn)
      as (_ & s' & Hs' & _ & Ha').
    exists s'. split; [exact Hs'|]. split; [intros _; exact Ha'|].
    intros H. rewrite Ha' in H. discriminate H.
  - revert Hn. unfold picoquic_cubic_notify. rewrite Hs.
    destruct (alg_state cu_state) eqn:Ha.
    + destruct notification; try discriminate Hloss; cbn [bind]; intros [= <-];
        exists cu_state; (split; [exact Hs|]); split; congruence.
    + destruct notification; try discriminate Hloss; cbn [bind].
      2-4: intros [= <-]; exists cu_state; (split; [exact Hs|]); split; congruence.
      destruct (picoquic_cubic_process_ack _ _ _ _ _) as [p1|] eqn:Hack; [|discriminate].
      cbn [bind]. intros [= <-].
      destruct (process_ack_keeps_alg_state _ _ _ _ _ _ Hs Hack) as (s' & Hs' & Ha' & _).
      exists s'. split; [exact Hs'|]. split; [intros _; congruence|].
      intros H. congruence.
Qed.

(** X1. A path that holds a controller keeps one under every sequence of
    notifications; congestion avoidance is never left; and as long as
    the controller is in slow start its state record has not been
    written. *)
Theorem congestion_avoidance_is_absorbing :
  forall (kCubeFactor : Z) (evs : list cc_event)
         (path_x path' : picoquic_path_t pacing_data)
         (cu_state : picoquic_cubic_state_t),
    congestion_alg_state path_x = Some cu_state ->
    deliver_all cbrt_u64 pacing_of kCubeFactor path_x evs = Some path' ->
    exists cu_state',
      congestion_alg_state path' = Some cu_state'
      /\ (alg_state cu_state = picoquic_cubic_alg_congestion_avoidance ->
          alg_state cu_state' = picoquic_cubic_alg_congestion_avoidance)
      /\ (alg_state cu_state' = picoquic_cubic_alg_slow_start -> cu_state' = cu_state).
Proof.
  intros kCubeFactor evs.
  induction evs as [|ev evs IH]; intros path_x path' cu_state Hs Hrun.
  - injection Hrun as <-. exists cu_state. split; [exact Hs|]. split; auto.
  - cbn [deliver_all] in Hrun.
    destruct (deliver cbrt_u64 pacing_of kCubeFactor path_x ev) as [p1|] eqn:Hstep;
      [|discriminate].
    cbn [bind] in Hrun. unfold deliver in Hstep.
    destruct (notify_automaton_step kCubeFactor (transport_view path_x ev) p1 cu_state
                _ _ _ _ _ Hs Hstep)
      as (s1 & Hs1 & Hca1 & Hss1).
    destruct (IH p1 path' s1 Hs1 Hrun) as (s' & Hs' & Hca & Hss).
    exists s'. split; [exact Hs'|]. split.
    + intros H. apply Hca, Hca1, H.
    + intros H. pose proof (Hss H) as E. subst s'.
      rewrite (Hss1 H). reflexivity.
Qed.


(** *** Notifications the controller ignores *)

Lemma ignored_step (kCubeFactor : Z) (path_x : picoquic_path_t pacing_data)
      (ev : cc_event) :
  is_ignored (ev_notification ev) = true ->
  exists path',
    deliver cbrt_u64 pacing_of kCubeFactor path_x ev = Some path'
    /\ cwin path' = cwin path_x
    /\ congestion_alg_state path' = congestion_alg_state path_x.
Proof.
  intros Hig. unfold deliver, picoquic_cubic_notify.
  cbn [congestion_alg_state transport_view].
  destruct (congestion_alg_state path_x) as [cu_state|] eqn:Hs.
  - destruct (alg_state cu_state); destruct (ev_notification ev);
      try discriminate Hig; cbn [bind]; eexists; (split; [reflexivity|]);
      split; reflexivity || exact Hs.
  - eexists. split; [reflexivity|]. split; reflexivity || exact Hs.
Qed.

(** X2. A sequence of SpuriousRepeat, RttMeasurement and unknown
    notifications is always processed, whatever the state of the path,
    and leaves [cwin] and the controller state as they were. *)
Theorem ignored_notifications_keep_window :
  forall (kCubeFactor : Z) (evs : list cc_event)
         (path_x : picoquic_path_t pacing_data),
    Forall (fun ev => is_ignored (ev_notification ev) = true) evs ->
    exists path',
      deliver_all cbrt_u64 pacing_of kCubeFactor path_x evs = Some path'
      /\ cwin path' = cwin path_x
      /\ congestion_alg_state path' = congestion_alg_state path_x.
Proof.
  intros kCubeFactor evs.
  induction evs as [|ev evs IH]; intros path_x Hall.
  - exists path_x. split; [reflexivity|]. split; reflexivity.
  - inversion Hall as [|ev' evs' Hev Hrest]; subst.
    destruct (ignored_step kCubeFactor path_x ev Hev) as (p1 & Hstep & Hc1 & Hs1).
    destruct (IH p1 Hrest) as (p' & Hrun & Hc & Hs).
    exists p'. cbn [deliver_all]. rewrite Hstep. cbn [bind].
    split; [exact Hrun|]. split; congruence.
Qed.

(** *** Release of the controller *)

(** X3. [picoquic_cubic_delete] empties the slot and keeps [cwin]; a
    second call changes nothing; and every notification after it returns
    the path as it received it. *)
Theorem delete_clears_the_slot :
  forall (path_x : picoquic_path_t pacing_data),
    congestion_alg_state (picoquic_cubic_delete path_x) = None
    /\ cwin (picoquic_cubic_delete path_x) = cwin path_x
    /\ picoquic_cubic_delete (picoquic_cubic_delete path_x) = picoquic_cubic_delete path_x
    /\ (forall kCubeFactor notification rtt_measurement nb_bytes_acknowledged
               lost_packet_number current_time,
           picoquic_cubic_notify cbrt_u64 pacing_of kCubeFactor
             (picoquic_cubic_delete path_x) notification
             rtt_measurement nb_bytes_acknowledged lost_packet_number current_time
           = Some (picoquic_cubic_delete path_x)).
Proof.
  intros path_x.
  assert (Hnull : congestion_alg_state (picoquic_cubic_delete path_x) = None).
  { unfold picoquic_cubic_delete.
    destruct (congestion_alg_state path_x) eqn:Hs; [reflexivity|exact Hs]. }
  split; [exact Hnull|]. split.
  { unfold picoquic_cubic_delete. destruct (congestion_alg_state path_x); reflexivity. }
  split.
  { unfold picoquic_cubic_delete at 1. rewrite Hnull. reflexivity. }
  intros. unfold picoquic_cubic_notify. rewrite Hnull. reflexivity.
Qed.

(** *** Losses in either state *)

Lemma process_loss_last_max (path_x : picoquic_path_t pacing_data)
      (cu_state : picoquic_cubic_state_t) :
  congestion_alg_state path_x = Some cu_state ->
  0 <= cwin path_x < 2 ^ 64 ->
  backoff_ok (Beta (total_stream_count path_x)) = true ->
  backoff_ok (BetaLastMax (total_stream_count path_x)) = true ->
  exists path' cu_state',
    picoquic_cubic_process_loss path_x = Some path'
    /\ congestion_alg_state path' = Some cu_state'
    /\ 0 <= cwin path' <= cwin path_x
    /\ 0 <= last_max_cwnd cu_state' <= cwin path_x
    /\ (last_max_cwnd cu_state <= C.u64 (cwin path_x + DEFAULT_TCP_MSS) ->
        last_max_cwnd cu_state' = cwin path_x)
    /\ epoch_start_time cu_state' = 0
    /\ alg_state cu_state' = alg_state cu_state
    /\ estimated_nr_cwnd cu_state' = estimated_nr_cwnd cu_state
    /\ time_of_origin cu_state' = time_of_origin cu_state
    /\ origin_cwnd cu_state' = origin_cwnd cu_state
    /\ last_target_cwnd cu_state' = last_target_cwnd cu_state.
Proof.
  intros Hs Hc Hb Hl.
  destruct (backoff_ok_inv _ Hb) as (mb & Hbeta & Hmb).
  destruct (backoff_ok_inv _ Hl) as (ml & Hlast & Hml).
  destruct (mul_backoff_le (cwin path_x) mb Hc Hmb) as (w & Hw & Hwc).
  destruct (mul_backoff_le (cwin path_x) ml Hc Hml) as (w2 & Hw2 & Hw2c).
  unfold picoquic_cubic_process_loss. rewrite Hs, Hbeta, Hlast, Hw.
  rewrite mul_comm, Hw2.
  destruct (Z.ltb_spec (C.u64 (cwin path_x + DEFAULT_TCP_MSS)) (last_max_cwnd cu_state));
    cbn [bind]; eexists; eexists;
    (split; [reflexivity|]); (split; [reflexivity|]);
    cbn [cwin set_cwin epoch_start_time alg_state last_max_cwnd estimated_nr_cwnd
         time_of_origin origin_cwnd last_target_cwnd];
    repeat split; try lia.
Qed.

(** X4. In slow start as in congestion avoidance, for a stream count from
    1 to 16384, a Repeat or Timeout is processed, ends in congestion
    avoidance with no epoch running, raises neither [cwin] nor
    [last_max_cwnd] above the window it found, and records that window
    as [last_max_cwnd] unless the last maximum exceeds it by more than
    one MSS. *)
Theorem loss_in_any_state :
  forall (kCubeFactor : Z) (path_x : picoquic_path_t pacing_data)
         (cu_state : picoquic_cubic_state_t)
         notification rtt_measurement nb_bytes_acknowledged lost_packet_number
         current_time,
    congestion_alg_state path_x = Some cu_state ->
    is_loss notification = true ->
    0 <= cwin path_x < 2 ^ 64 ->
    1 <= total_stream_count path_x <= MAX_CHECKED_STREAMS ->
    exists path' cu_state',
      picoquic_cubic_notify cbrt_u64 pacing_of kCubeFactor path_x notification
        rtt_measurement nb_bytes_acknowledged lost_packet_number current_time
      = Some path'
      /\ congestion_alg_state path' = Some cu_state'
      /\ alg_state cu_state' = picoquic_cubic_alg_congestion_avoidance
      /\ epoch_start_time cu_state' = 0
      /\ 0 <= cwin path' <= cwin path_x
      /\ 0 <= last_max_cwnd cu_state' <= cwin path_x
      /\ (last_max_cwnd cu_state <= C.u64 (cwin path_x + DEFAULT_TCP_MSS) ->
          last_max_cwnd cu_state' = cwin path_x).
Proof.
  intros kCubeFactor path_x cu_state notification rtt nb lost now Hs Hloss Hc Hn.
  destruct (backoff_ok_streams _ Hn) as [Hb Hl].
  unfold picoquic_cubic_notify. rewrite Hs.
  destruct (alg_state cu_state) eqn:Ha.
  - destruct (process_loss_last_max
                (set_state path_x
                   (Some (with_alg_state cu_state picoquic_cubic_alg_congestion_avoidance)))
                (with_alg_state cu_state picoquic_cubic_alg_congestion_avoidance)
                eq_refl Hc Hb Hl)
      as (p' & s' & Hpl & Hs' & Hc' & Hm' & Hrec & He' & Ha' & _).
    destruct notification; try discriminate Hloss;
      rewrite Hpl; cbn [bind]; exists (picoquic_update_pacing_data pacing_of p'), s';
      (split; [reflexivity|]); (split; [exact Hs'|]); (split; [exact Ha'|]);
      (split; [exact He'|]); (split; [exact Hc'|]); (split; [exact Hm'|]); exact Hrec.
  - destruct (process_loss_last_max path_x cu_state Hs Hc Hb Hl)
      as (p' & s' & Hpl & Hs' & Hc' & Hm' & Hrec & He' & Ha' & _).
    destruct notification; try discriminate Hloss;
      rewrite Hpl; cbn [bind]; exists (picoquic_update_pacing_data pacing_of p'), s';
      (split; [reflexivity|]); (split; [exact Hs'|]); (split; [congruence|]);
      (split; [exact He'|]); (split; [exact Hc'|]); (split; [exact Hm'|]); exact Hrec.
Qed.

End AutomatonProperties.

(** ** The test driver *)

Lemma distinct_NoDup (l : list String.string) : distinct l = true -> NoDup l.
Proof.
  induction l as [|x l IH]; simpl; intros H; [constructor|].
  apply andb_prop in H. destruct H as [Hx Hl].
  constructor; [|apply IH; exact Hl].
  intros Hin. apply negb_true_iff in Hx.
  assert (existsb (String.eqb x) l = true); [|congruence].
  apply existsb_exists. exists x. split; [exact Hin|apply String.eqb_refl].
Qed.

Lemma test_names_NoDup : NoDup Driver.test_names.
Proof. apply distinct_NoDup. vm_compute. reflexivity. Qed.

Lemma get_from_absent (names : list String.string) (i : nat) (tn : Z) name :
  ~ In name names -> Driver.get_test_number_from names i tn name = tn.
Proof.
  revert i tn. induction names as [|n names IH]; intros i tn Hnot; [reflexivity|].
  simpl. destruct (String.eqb_spec name n) as [->|Hne].
  - exfalso. apply Hnot. left. reflexivity.
  - apply IH. intros Hin. apply Hnot. right. exact Hin.
Qed.

Lemma get_from_present (names : list String.string) (i k : nat) (tn : Z) name :
  NoDup names -> nth_error names k = Some name ->
  Driver.get_test_number_from names i tn name = Z.of_nat (i + k).
Proof.
  revert i k tn. induction names as [|n names IH]; intros i k tn Hnd Hk.
  - destruct k; discriminate.
  - inversion Hnd as [|? ? Hn Hnd']; subst. simpl.
    destruct k as [|k]; simpl in Hk.
    + injection Hk as ->. rewrite String.eqb_refl.
      rewrite get_from_absent by exact Hn. f_equal. lia.
    + destruct (String.eqb_spec name n) as [->|Hne].
      * exfalso. apply Hn. apply nth_error_In with k. exact Hk.
      * rewrite (IH (S i) k tn Hnd' Hk). f_equal. lia.
Qed.

Lemma get_test_number_index (name : String.string) (i : nat) :
  Driver.get_test_number name = Z.of_nat i <-> nth_error Driver.test_names i = Some name.
Proof.
  unfold Driver.get_test_number. split.
  - intros Hg. destruct (in_dec String.string_dec name Driver.test_names) as [Hin|Hnot].
    + destruct (In_nth_error _ _ Hin) as [k Hk].
      rewrite (get_from_present _ 0 k (-1) name test_names_NoDup Hk) in Hg.
      replace i with k by lia. exact Hk.
    + rewrite get_from_absent in Hg by exact Hnot. lia.
  - intros Hk. apply (get_from_present _ 0 i (-1) name test_names_NoDup Hk).
Qed.

Lemma get_test_number_absent (name : String.string) :
  Driver.get_test_number name = -1 <-> ~ In name Driver.test_names.
Proof.
  unfold Driver.get_test_number. split.
  - intros Hg Hin. destruct (In_nth_error _ _ Hin) as [k Hk].
    rewrite (get_from_present _ 0 k (-1) name test_names_NoDup Hk) in Hg. lia.
  - apply get_from_absent.
Qed.

Lemma get_test_number_cases (name : String.string) :
  Driver.get_test_number name = -1
  \/ exists i, (i < Driver.nb_tests)%nat
               /\ Driver.get_test_number name = Z.of_nat i
               /\ nth_error Driver.test_names i = Some name.
Proof.
  destruct (in_dec String.string_dec name Driver.test_names) as [Hin|Hnot].
  - right. destruct (In_nth_error _ _ Hin) as [k Hk]. exists k.
    split; [|split; [apply get_test_number_index; exact Hk|exact Hk]].
    apply nth_error_Some. congruence.
  - left. apply get_test_number_absent. exact Hnot.
Qed.

(** X11. [get_test_number] inverts the table: it returns [i] exactly for
    the name of entry [i], and -1 exactly for the names that the
    table does not hold; no other value is returned. *)
Theorem get_test_number_round_trip :
  (forall name i,
      Driver.get_test_number name = Z.of_nat i
      <-> nth_error Driver.test_names i = Some name)
  /\ (forall name,
         Driver.get_test_number name = -1 <-> ~ In name Driver.test_names)
  /\ (forall name, -1 <= Driver.get_test_number name < Z.of_nat Driver.nb_tests).
Proof.
  split; [exact get_test_number_index|]. split; [exact get_test_number_absent|].
  intros name. destruct (get_test_number_cases name) as [->|(i & Hi & -> & _)]; lia.
Qed.

Lemma array_set_length (a : list Z) (j : nat) (v : Z) :
  List.length (Driver.array_set a j v) = List.length a.
Proof.
  revert j. induction a as [|x a IH]; intros [|j]; simpl; try reflexivity.
  rewrite IH. reflexivity.
Qed.

Lemma nth_array_set (a : list Z) (i j : nat) (v d : Z) :
  (j < List.length a)%nat ->
  nth i (Driver.array_set a j v) d = if (i =? j)%nat then v else nth i a d.
Proof.
  revert i j. induction a as [|x a IH]; intros i j Hj; simpl in Hj; [lia|].
  destruct j as [|j], i as [|i]; simpl; try reflexivity.
  apply IH. lia.
Qed.

Lemma test_name_index (i : nat) (name : String.string) :
  (i < Driver.nb_tests)%nat ->
  String.eqb (Driver.test_name i) name = true
  <-> Driver.get_test_number name = Z.of_nat i.
Proof.
  intros Hi. rewrite get_test_number_index, String.eqb_eq. unfold Driver.test_name.
  split.
  - intros <-. apply nth_error_nth'. exact Hi.
  - intros H. apply nth_error_nth. exact H.
Qed.

(** The array that the [-x] options leave. *)
Lemma nth_excluded (xs : list String.string) (a : list Z) (i : nat) :
  List.length a = Driver.nb_tests -> (i < Driver.nb_tests)%nat ->
  Forall (fun x => 0 <= Driver.get_test_number x) xs ->
  nth i (fold_left (fun a x => Driver.array_set a (Z.to_nat (Driver.get_test_number x)) 1)
                   xs a) 0
  = if existsb (String.eqb (Driver.test_name i)) xs then 1 else nth i a 0.
Proof.
  intros Hlen Hi Hxs. revert a Hlen.
  induction Hxs as [|x xs Hx _ IH]; intros a Hlen; [reflexivity|].
  cbn [fold_left existsb].
  rewrite IH by (rewrite array_set_length; exact Hlen).
  destruct (existsb (String.eqb (Driver.test_name i)) xs);
    [rewrite orb_true_r; reflexivity|rewrite orb_false_r].
  destruct (get_test_number_cases x) as [Hneg|(j & Hj & Hg & _)]; [lia|].
  rewrite Hg, Nat2Z.id, nth_array_set by lia.
  destruct (Nat.eqb_spec i j) as [->|Hne].
  - replace (String.eqb (Driver.test_name j) x) with true; [reflexivity|].
    symmetry. apply test_name_index; assumption.
  - destruct (String.eqb (Driver.test_name i) x) eqn:E; [|reflexivity].
    apply test_name_index in E; [|exact Hi]. lia.
Qed.

Section DriverProperties.

Variable test_fn : nat -> Z.
Variable atoi : String.string -> Z.

Lemma try_test_valid (i : nat) (t : Driver.tally) :
  (i < Driver.nb_tests)%nat ->
  Driver.try_test test_fn i t
  = Driver.mk_tally (if test_fn i =? 0 then Driver.ret t else -1)
                    (Driver.nb_test_tried t + 1)
                    (if test_fn i =? 0 then Driver.nb_test_failed t
                     else Driver.nb_test_failed t + 1)
                    (Driver.executed t ++ [i]).
Proof.
  intros Hi. unfold Driver.try_test, Driver.do_one_test.
  destruct (Nat.leb_spec Driver.nb_tests i) as [Hge|_]; [lia|reflexivity].
Qed.

(** The loop over the table, on any list of valid indices. *)
Lemma run_list_spec (excluded : list Z) (l : list nat) (t : Driver.tally) :
  Forall (fun i => (i < Driver.nb_tests)%nat) l ->
  let keep := filter (fun i => nth i excluded 0 =? 0) l in
  let t' := fold_left (fun t i => if nth i excluded 0 =? 0
                                  then Driver.try_test test_fn i t else t) l t in
  Driver.executed t' = Driver.executed t ++ keep
  /\ Driver.ret t' = (if all_pass test_fn keep then Driver.ret t else -1).
Proof.
  intros Hl. revert t. induction Hl as [|i l Hi _ IH]; intros t; cbn [fold_left filter].
  - rewrite app_nil_r. split; reflexivity.
  - destruct (nth i excluded 0 =? 0); [|apply IH].
    destruct (IH (Driver.try_test test_fn i t)) as [He Hr].
    rewrite He, Hr, try_test_valid by exact Hi.
    cbn [Driver.executed Driver.ret all_pass forallb].
    rewrite <- app_assoc. split; [reflexivity|].
    fold (all_pass test_fn (filter (fun i => nth i excluded 0 =? 0) l)).
    destruct (test_fn i =? 0); [reflexivity|].
    cbn [andb]. destruct (all_pass _ _); reflexivity.
Qed.

Lemma seq_valid : Forall (fun i => (i < Driver.nb_tests)%nat) (seq 0 Driver.nb_tests).
Proof. apply Forall_forall. intros i Hi. apply in_seq in Hi. lia. Qed.

Lemma run_all_spec (excluded : list Z) (t : Driver.tally) :
  let keep := filter (fun i => nth i excluded 0 =? 0) (seq 0 Driver.nb_tests) in
  Driver.executed (Driver.run_all test_fn excluded t) = Driver.executed t ++ keep
  /\ Driver.ret (Driver.run_all test_fn excluded t)
     = (if all_pass test_fn keep then Driver.ret t else -1).
Proof. apply (run_list_spec excluded _ t seq_valid). Qed.

(** The loop over the names: at most one test, the first one whose name
    the table holds. *)
Lemma run_named_spec (bad : list String.string) (good : String.string)
      (rest : list String.string) (i : nat) (t : Driver.tally) :
  Forall (fun n => ~ In n Driver.test_names) bad ->
  nth_error Driver.test_names i = Some good ->
  let t' := Driver.run_named test_fn (bad ++ good :: rest) t in
  Driver.executed t' = Driver.executed t ++ [i]
  /\ Driver.ret t' = (if test_fn i =? 0
                      then match bad with [] => Driver.ret t | _ => -1 end
                      else -1).
Proof.
  intros Hbad Hgood. revert t.
  assert (Hi : (i < Driver.nb_tests)%nat) by (apply nth_error_Some; congruence).
  induction Hbad as [|b bad Hb _ IH]; intros t; cbn [app Driver.run_named].
  - apply get_test_number_index in Hgood. rewrite Hgood.
    destruct (Z.ltb_spec (Z.of_nat i) 0) as [Hneg|_]; [lia|].
    rewrite Nat2Z.id, try_test_valid by exact Hi. split; reflexivity.
  - apply get_test_number_absent in Hb. rewrite Hb. change (-1 <? 0) with true. cbv iota.
    destruct (IH (Driver.mk_tally Driver.usage (Driver.nb_test_tried t)
                                  (Driver.nb_test_failed t) (Driver.executed t)))
      as [He Hr].
    cbv zeta in He, Hr. rewrite He, Hr. cbn [Driver.executed Driver.ret].
    split; [reflexivity|].
    destruct (test_fn i =? 0); [|reflexivity]. destruct bad; reflexivity.
Qed.

Lemma run_named_sound (names : list String.string) (t : Driver.tally) :
  let t' := Driver.run_named test_fn names t in
  (Driver.executed t' = Driver.executed t
   /\ (Driver.ret t' = Driver.ret t \/ Driver.ret t' = -1))
  \/ exists i, (i < Driver.nb_tests)%nat
               /\ Driver.executed t' = Driver.executed t ++ [i]
               /\ (Driver.ret t' = -1
                   \/ (Driver.ret t' = Driver.ret t /\ test_fn i = 0)).
Proof.
  revert t. induction names as [|name names IH]; intros t; cbn [Driver.run_named].
  - left. split; [reflexivity|left; reflexivity].
  - destruct (get_test_number_cases name) as [->|(i & Hi & -> & _)].
    + change (-1 <? 0) with true. cbv iota.
      destruct (IH (Driver.mk_tally Driver.usage (Driver.nb_test_tried t)
                                    (Driver.nb_test_failed t) (Driver.executed t)))
        as [[He Hr]|(i & Hi & He & Hr)]; cbv zeta in *;
        cbn [Driver.executed Driver.ret] in *.
      * left. split; [exact He|]. right. destruct Hr as [Hr|Hr]; exact Hr.
      * right. exists i. split; [exact Hi|]. split; [exact He|].
        left. destruct Hr as [Hr|[Hr _]]; exact Hr.
    + destruct (Z.ltb_spec (Z.of_nat i) 0) as [Hneg|_]; [lia|].
      rewrite Nat2Z.id, try_test_valid by exact Hi.
      right. exists i. split; [exact Hi|]. split; [reflexivity|].
      cbn [Driver.ret]. destruct (Z.eqb_spec (test_fn i) 0); [right; split|left];
        (reflexivity || assumption).
Qed.

Lemma scan_options_ret (opts : list Driver.getopt_result) (o o' : Driver.options) :
  Driver.opt_ret o = 0 \/ Driver.opt_ret o = -1 ->
  Driver.scan_options atoi opts o = Some o' ->
  Driver.opt_ret o' = 0 \/ Driver.opt_ret o' = -1.
Proof.
  revert o. induction opts as [|opt opts IH]; intros o Ho; cbn [Driver.scan_options].
  - intros [= <-]. exact Ho.
  - destruct (Driver.opt_ret o =? 0); [|intros [= <-]; exact Ho].
    destruct opt as [a|a| |].
    + destruct (_ <? _); apply IH; cbn [Driver.opt_ret]; [right; reflexivity|exact Ho].
    + apply IH. cbn [Driver.opt_ret]. destruct (_ <=? _); [right; reflexivity|exact Ho].
    + discriminate.
    + apply IH. right. reflexivity.
Qed.

Lemma scan_options_exit (opts : list Driver.getopt_result) (o : Driver.options) :
  Driver.scan_options atoi opts o = None -> In Driver.opt_h opts.
Proof.
  revert o. induction opts as [|opt opts IH]; intros o; cbn [Driver.scan_options].
  - discriminate.
  - destruct (Driver.opt_ret o =? 0); [|discriminate].
    destruct opt as [a|a| |].
    + destruct (_ <? _); intros H; right; exact (IH _ H).
    + intros H; right; exact (IH _ H).
    + intros _. left. reflexivity.
    + intros H; right; exact (IH _ H).
Qed.

(** The option loop on options that are all accepted. *)
Lemma scan_options_accepted (opts : list Driver.getopt_result) (o : Driver.options) :
  Driver.opt_ret o = 0 ->
  forallb (accepted atoi) opts = true ->
  Driver.scan_options atoi opts o
  = Some (Driver.mk_options 0
            (minutes_after atoi opts (Driver.stress_minutes o))
            (match excluded_names opts with
             | [] => Driver.found_exclusion o
             | _ => 1
             end)
            (fold_left
               (fun a x => Driver.array_set a (Z.to_nat (Driver.get_test_number x)) 1)
               (excluded_names opts) (Driver.is_excluded o)))
  /\ Forall (fun x => 0 <= Driver.get_test_number x) (excluded_names opts).
Proof.
  revert o. induction opts as [|opt opts IH]; intros o Ho Hacc.
  - destruct o as [r m f e]. cbn in Ho |- *. subst r. split; [reflexivity|constructor].
  - cbn [forallb] in Hacc. apply andb_prop in Hacc. destruct Hacc as [Ha Hacc].
    cbn [Driver.scan_options]. rewrite Ho. cbn [Z.eqb].
    destruct opt as [a|a| |]; cbn [accepted] in Ha; try discriminate.
    + apply Z.leb_le in Ha.
      destruct (Z.ltb_spec (Driver.get_test_number a) 0) as [Hneg|_]; [lia|].
      edestruct IH as [-> Hall]; [|exact Hacc|]; [reflexivity|].
      cbn [excluded_names fold_left Driver.stress_minutes Driver.found_exclusion
           Driver.is_excluded minutes_after].
      split; [|constructor; assumption].
      destruct (excluded_names opts); reflexivity.
    + apply Z.ltb_lt in Ha.
      destruct (Z.leb_spec (atoi a) 0) as [Hle|_]; [lia|].
      edestruct IH as [-> Hall]; [|exact Hacc|]; [reflexivity|].
      cbn [excluded_names minutes_after Driver.stress_minutes Driver.found_exclusion
           Driver.is_excluded].
      split; [reflexivity|exact Hall].
Qed.

(** The test loops, from the value that the option loop leaves in
    [ret]. *)
Lemma test_loops_sound (excluded : list Z) (names : list String.string) (r : Z) :
  r = 0 \/ r = -1 ->
  let t0 := Driver.mk_tally r 0 0 [] in
  let t := if r =? 0 then
             match names with
             | [] => Driver.run_all test_fn excluded t0
             | _ => Driver.run_named test_fn names t0
             end
           else t0 in
  (Driver.ret t = 0 \/ Driver.ret t = -1)
  /\ Forall (fun i => (i < Driver.nb_tests)%nat) (Driver.executed t)
  /\ (Driver.ret t = 0 -> Forall (fun i => test_fn i = 0) (Driver.executed t)).
Proof.
  intros Hr t0 t. subst t.
  destruct (Z.eqb_spec r 0) as [H0|Hn0].
  2:{ subst t0. cbn [Driver.ret Driver.executed].
      split; [exact Hr|]. split; [constructor|]. intros E. contradiction. }
  destruct names as [|name names].
  - destruct (run_all_spec excluded t0) as [He Hret].
    cbv zeta in He, Hret. rewrite He, Hret. subst t0.
    cbn [Driver.executed Driver.ret app].
    assert (Hv : Forall (fun i => (i < Driver.nb_tests)%nat)
                        (filter (fun i => nth i excluded 0 =? 0)
                                (seq 0 Driver.nb_tests))).
    { apply Forall_forall. intros i Hi.
      apply filter_In in Hi. destruct Hi as [Hi _]. apply in_seq in Hi.
      destruct Hi as [_ Hi]. exact Hi. }
    revert Hv.
    generalize (filter (fun i => nth i excluded 0 =? 0) (seq 0 Driver.nb_tests)).
    intros keep Hv.
    split; [destruct (all_pass test_fn keep); [left; exact H0|right; reflexivity]|].
    split; [exact Hv|].
    destruct (all_pass test_fn keep) eqn:Hall; [|discriminate]. intros _.
    apply Forall_forall. intros i Hi. unfold all_pass in Hall.
    rewrite forallb_forall in Hall. apply Z.eqb_eq. apply Hall. exact Hi.
  - destruct (run_named_sound (name :: names) t0)
      as [[He Hret]|(i & Hi & He & Hret)]; cbv zeta in He, Hret; rewrite He;
      subst t0; cbn [Driver.executed Driver.ret app] in *.
    + split; [destruct Hret as [-> | ->]; [exact Hr|right; reflexivity]|].
      split; [constructor|]. intros _. constructor.
    + split; [destruct Hret as [-> | [-> _]]; [right; reflexivity|exact Hr]|].
      split; [constructor; [exact Hi|constructor]|].
      destruct Hret as [-> | [_ Hpass]]; [discriminate|].
      intros _. constructor; [exact Hpass|constructor].
Qed.

(** X12. What [main] reports: the process ends by [exit(0)] only on
    [-h], before any test; otherwise [main] returns 0 or -1, and a
    return of 0 means that every test executed returned 0.  When the
    allocation fails nothing is executed and -1 is returned. *)
Theorem main_success_is_sound :
  forall (malloc_ok : bool) (opts : list Driver.getopt_result)
         (names : list String.string),
    let e := Driver.main test_fn atoi malloc_ok opts names in
    (Driver.result e = Driver.main_return 0
     \/ Driver.result e = Driver.main_return (-1)
     \/ (Driver.result e = Driver.process_exit 0
         /\ In Driver.opt_h opts /\ Driver.tests_executed e = []))
    /\ (Driver.result e = Driver.main_return 0 ->
        Forall (fun i => test_fn i = 0) (Driver.tests_executed e))
    /\ (malloc_ok = false ->
        Driver.result e = Driver.main_return (-1) /\ Driver.tests_executed e = []).
Proof.
  intros malloc_ok opts names. unfold Driver.main.
  destruct malloc_ok; cbv zeta.
  2:{ cbn [Driver.result Driver.tests_executed].
      split; [right; left; reflexivity|].
      split; [discriminate|]. intros _. split; reflexivity. }
  destruct (Driver.scan_options atoi opts _) as [o|] eqn:Hscan.
  2:{ cbn [Driver.result Driver.tests_executed].
      split; [right; right; split; [reflexivity|split; [|reflexivity]]|].
      - exact (scan_options_exit _ _ Hscan).
      - split; discriminate. }
  assert (Hret : Driver.opt_ret o = 0 \/ Driver.opt_ret o = -1).
  { apply (scan_options_ret opts _ o) in Hscan; [exact Hscan|left; reflexivity]. }
  cbn [Driver.result Driver.tests_executed].
  match goal with
  | |- context [if ?c then Driver.exclude_all_but_stress ?a else ?b] =>
      generalize (if c then Driver.exclude_all_but_stress a else b)
  end.
  intros excluded.
  destruct (test_loops_sound excluded names (Driver.opt_ret o) Hret)
    as (Hr & Hvalid & Hpass).
  cbv zeta in Hr, Hvalid, Hpass.
  split; [destruct Hr as [-> | ->]; [left|right; left]; reflexivity|].
  split; [|discriminate].
  intros [= E]. exact (Hpass E).
Qed.

(** X13. With names on the command line and accepted options, [main]
    executes one test only: the first name that the table holds.  The
    names after it are not looked at, the [-x] and [-s] options have no
    effect, and a name before it that the table does not hold makes the
    return value -1 whatever the test returns. *)
Theorem named_run_executes_first_valid_name :
  forall (opts : list Driver.getopt_result)
         (bad : list String.string) (good : String.string)
         (rest : list String.string) (i : nat),
    forallb (accepted atoi) opts = true ->
    Forall (fun n => ~ In n Driver.test_names) bad ->
    nth_error Driver.test_names i = Some good ->
    Driver.main test_fn atoi true opts (bad ++ good :: rest)
    = Driver.mk_execution
        (Driver.main_return
           (if test_fn i =? 0 then match bad with [] => 0 | _ => -1 end else -1))
        [i] None.
Proof.
  intros opts bad good rest i Hacc Hbad Hgood. unfold Driver.main.
  destruct (scan_options_accepted opts (Driver.mk_options 0 0 0 (repeat 0 Driver.nb_tests))
              eq_refl Hacc) as [-> _].
  cbv zeta. cbn [Driver.opt_ret Z.eqb].
  destruct (run_named_spec bad good rest i (Driver.mk_tally 0 0 0 []) Hbad Hgood)
    as [He Hr].
  cbv zeta in He, Hr.
  assert (Hnames : match bad ++ good :: rest with
                   | [] => true
                   | _ :: _ => false
                   end = false) by (destruct bad; reflexivity).
  rewrite Hnames, andb_false_r. cbn [andb].
  destruct (bad ++ good :: rest) eqn:Hn; [destruct bad; discriminate|].
  rewrite He, Hr. reflexivity.
Qed.

(** X14. With no name on the command line, accepted options, and
    either an exclusion or no stress duration, [main] executes, in the
    order of the table, exactly the tests that no [-x] names; it returns
    0 when all of them return 0 and -1 otherwise. *)
Theorem exclusions_select_the_tests :
  forall (opts : list Driver.getopt_result),
    forallb (accepted atoi) opts = true ->
    excluded_names opts <> [] \/ minutes_after atoi opts 0 = 0 ->
    Driver.main test_fn atoi true opts []
    = Driver.mk_execution
        (Driver.main_return
           (if all_pass test_fn (not_excluded (excluded_names opts)) then 0 else -1))
        (not_excluded (excluded_names opts)) None.
Proof.
  intros opts Hacc Hmode. unfold Driver.main.
  destruct (scan_options_accepted opts (Driver.mk_options 0 0 0 (repeat 0 Driver.nb_tests))
              eq_refl Hacc) as [-> Hxs].
  cbv zeta.
  cbn [Driver.opt_ret Driver.stress_minutes Driver.found_exclusion Driver.is_excluded
       Z.eqb andb].
  assert (Hstress : (0 <? minutes_after atoi opts 0) && true
                    && (match excluded_names opts with [] => 0 | _ => 1 end =? 0)
                    = false).
  { destruct Hmode as [Hx|Hm].
    - destruct (excluded_names opts); [contradiction|]. apply andb_false_r.
    - rewrite Hm. reflexivity. }
  rewrite Hstress.
  set (excluded := fold_left _ _ _).
  destruct (run_all_spec excluded (Driver.mk_tally 0 0 0 [])) as [He Hr].
  cbv zeta in He, Hr. rewrite He, Hr. cbn [Driver.executed Driver.ret app].
  assert (Hkeep : filter (fun i => nth i excluded 0 =? 0) (seq 0 Driver.nb_tests)
                  = not_excluded (excluded_names opts)).
  { unfold not_excluded. apply filter_ext_in. intros i Hi. apply in_seq in Hi.
    unfold excluded. rewrite nth_excluded; [|apply repeat_length|lia|exact Hxs].
    destruct (existsb _ _); [reflexivity|].
    rewrite nth_repeat. reflexivity. }
  rewrite Hkeep. reflexivity.
Qed.

(** X15. With no name and no exclusion, accepted [-s] options make
    [main] execute the stress test alone, entry 77 of the table, and
    leave the last duration given, in microseconds, in
    [picoquic_stress_test_duration]. *)
Theorem stress_option_runs_stress_alone :
  forall (opts : list Driver.getopt_result),
    forallb (accepted atoi) opts = true ->
    excluded_names opts = [] ->
    0 < minutes_after atoi opts 0 ->
    Driver.main test_fn atoi true opts []
    = Driver.mk_execution
        (Driver.main_return (if test_fn 77%nat =? 0 then 0 else -1))
        [77%nat] (Some (minutes_after atoi opts 0 * 60000000))
    /\ Driver.get_test_number Driver.stress_name = 77.
Proof.
  intros opts Hacc Hx Hm. split; [|vm_compute; reflexivity]. unfold Driver.main.
  destruct (scan_options_accepted opts (Driver.mk_options 0 0 0 (repeat 0 Driver.nb_tests))
              eq_refl Hacc) as [-> _].
  cbv zeta. rewrite Hx.
  cbn [Driver.opt_ret Driver.stress_minutes Driver.found_exclusion Driver.is_excluded
       Z.eqb andb fold_left].
  apply Z.ltb_lt in Hm. rewrite Hm. cbn [andb].
  destruct (run_all_spec (Driver.exclude_all_but_stress (repeat 0 Driver.nb_tests))
                         (Driver.mk_tally 0 0 0 [])) as [He Hr].
  cbv zeta in He, Hr. rewrite He, Hr. cbn [Driver.executed Driver.ret app].
  replace (filter _ (seq 0 Driver.nb_tests)) with [77%nat] by (vm_compute; reflexivity).
  cbn [all_pass forallb]. rewrite andb_true_r. reflexivity.
Qed.

End DriverProperties.

(** ** Instances of the further properties *)

Lemma congestion_avoidance_is_absorbing_witness :
  exists cu_state',
    congestion_alg_state epoch_path_after_loss = Some cu_state'
    /\ (alg_state epoch_state = picoquic_cubic_alg_congestion_avoidance ->
        alg_state cu_state' = picoquic_cubic_alg_congestion_avoidance)
    /\ (alg_state cu_state' = picoquic_cubic_alg_slow_start -> cu_state' = epoch_state).
Proof.
  apply (congestion_avoidance_is_absorbing icbrt unit no_pacing kCubeFactor_init
           [second_ack; timeout_event 1 1100000] epoch_path epoch_path_after_loss
           epoch_state).
  - reflexivity.
  - vm_compute. reflexivity.
Defined.

Lemma ignored_notifications_keep_window_witness :
  exists path',
    deliver_all icbrt no_pacing kCubeFactor_init busy_path [rtt_event; rtt_event]
    = Some path'
    /\ cwin path' = cwin busy_path
    /\ congestion_alg_state path' = congestion_alg_state busy_path.
Proof.
  apply (ignored_notifications_keep_window icbrt unit no_pacing kCubeFactor_init
           [rtt_event; rtt_event] busy_path).
  repeat constructor.
Defined.

Lemma loss_in_any_state_witness :
  exists path' cu_state',
    picoquic_cubic_notify icbrt no_pacing kCubeFactor_init started_path
                          picoquic_congestion_notification_repeat 0 0 7 500000
    = Some path'
    /\ congestion_alg_state path' = Some cu_state'
    /\ alg_state cu_state' = picoquic_cubic_alg_congestion_avoidance
    /\ epoch_start_time cu_state' = 0
    /\ 0 <= cwin path' <= cwin started_path
    /\ 0 <= last_max_cwnd cu_state' <= cwin started_path
    /\ (last_max_cwnd slow_start_state <= C.u64 (cwin started_path + DEFAULT_TCP_MSS) ->
        last_max_cwnd cu_state' = cwin started_path).
Proof.
  apply (loss_in_any_state icbrt unit no_pacing kCubeFactor_init started_path
           slow_start_state).
  - reflexivity.
  - reflexivity.
  - simpl. lia.
  - simpl. unfold MAX_CHECKED_STREAMS. lia.
Defined.

Lemma cubic_offset_is_the_distance_witness :
  cubic_offset 2037 1000 = Z.abs (2037 - 1000)
  /\ cubic_offset_long 2037 1000 = Z.abs (2037 - 1000).
Proof.
  apply (cubic_offset_is_the_distance 2037 1000).
  - lia.
  - lia.
  - simpl. lia.
Defined.

Lemma icbrt_within (x : Z) : 0 <= x -> root_within (icbrt x) x.
Proof.
  intros Hx. destruct (icbrt_below x Hx) as [H0 H3].
  assert (0 <= x / 2 ^ 24) by (apply Z.div_pos; lia).
  split; lia.
Qed.

Lemma epoch_target_does_not_wrap_witness :
  cubic_target (start_epoch icbrt kCubeFactor_init backoff_path backoff_state 1000000) 1000
  = origin_cwnd (start_epoch icbrt kCubeFactor_init backoff_path backoff_state 1000000)
    - delta_congestion_window
        (cubic_offset
           (time_of_origin
              (start_epoch icbrt kCubeFactor_init backoff_path backoff_state 1000000))
           1000)
  /\ cwin backoff_path
     <= cubic_target (start_epoch icbrt kCubeFactor_init backoff_path backoff_state 1000000)
                     1000
     <= origin_cwnd (start_epoch icbrt kCubeFactor_init backoff_path backoff_state 1000000).
Proof.
  apply (epoch_target_does_not_wrap icbrt unit backoff_path backoff_state 1000000 1000).
  - reflexivity.
  - simpl. lia.
  - simpl. lia.
  - lia.
  - intros _. vm_compute. split; congruence.
  - vm_compute. congruence.
Defined.


Lemma ack_commits_target_or_estimate_witness :
  exists cu_state',
    congestion_alg_state busy_path_after_ack = Some cu_state'
    /\ cwin busy_path_after_ack
       = Z.max (last_target_cwnd cu_state') (estimated_nr_cwnd cu_state')
    /\ last_target_cwnd cu_state' <= C.u64 (cwin busy_path + 3000 / 2)
    /\ alg_state cu_state' = picoquic_cubic_alg_congestion_avoidance
    /\ last_max_cwnd cu_state' = last_max_cwnd avoidance_state
    /\ (epoch_start_time avoidance_state <> 0 ->
        epoch_start_time cu_state' = epoch_start_time avoidance_state
        /\ time_of_origin cu_state' = time_of_origin avoidance_state
        /\ origin_cwnd cu_state' = origin_cwnd avoidance_state)
    /\ (epoch_start_time avoidance_state = 0 ->
        epoch_start_time cu_state' = C.u64 (1003000 - rtt_min busy_path)
        /\ origin_cwnd cu_state'
           = Z.max (cwin busy_path) (last_max_cwnd avoidance_state)).
Proof.
  apply (ack_commits_target_or_estimate icbrt unit no_pacing kCubeFactor_init
           busy_path busy_path_after_ack avoidance_state 0 3000 0 1003000).
  - reflexivity.
  - reflexivity.
  - simpl. lia.
  - vm_compute. reflexivity.
Defined.

Lemma first_ack_of_epoch_keeps_window_witness :
  cwin backoff_path <= cwin backoff_path_after_ack.
Proof.
  apply (first_ack_of_epoch_keeps_window icbrt unit no_pacing backoff_path
           backoff_path_after_ack backoff_state 0 12000 0 1000000).
  - intros _. apply icbrt_within. apply u64_range.
  - reflexivity.
  - reflexivity.
  - reflexivity.
  - simpl. lia.
  - simpl. lia.
  - simpl. lia.
  - simpl. lia.
  - lia.
  - simpl. lia.
  - lia.
  - vm_compute. reflexivity.
Defined.

Lemma named_run_executes_first_valid_name_witness :
  Driver.main Driver.passing Driver.digit_atoi true Driver.exclusion_options
              (Driver.unknown_names ++ Driver.splay_name :: [Driver.stress_name])
  = Driver.mk_execution
      (Driver.main_return
         (if Driver.passing 78 =? 0
          then match Driver.unknown_names with [] => 0 | _ => -1 end
          else -1))
      [78%nat] None.
Proof.
  apply (named_run_executes_first_valid_name Driver.passing Driver.digit_atoi
           Driver.exclusion_options Driver.unknown_names Driver.splay_name
           [Driver.stress_name] 78).
  - vm_compute. reflexivity.
  - constructor; [|constructor].
    apply get_test_number_absent. vm_compute. reflexivity.
  - reflexivity.
Defined.

Lemma exclusions_select_the_tests_witness :
  Driver.main Driver.passing Driver.digit_atoi true Driver.exclusion_options []
  = Driver.mk_execution
      (Driver.main_return
         (if all_pass Driver.passing
                      (not_excluded (excluded_names Driver.exclusion_options))
          then 0 else -1))
      (not_excluded (excluded_names Driver.exclusion_options)) None.
Proof.
  apply (exclusions_select_the_tests Driver.passing Driver.digit_atoi
           Driver.exclusion_options).
  - vm_compute. reflexivity.
  - left. simpl. discriminate.
Defined.

Lemma stress_option_runs_stress_alone_witness :
  Driver.main Driver.passing Driver.digit_atoi true Driver.stress_options []
  = Driver.mk_execution
      (Driver.main_return (if Driver.passing 77 =? 0 then 0 else -1))
      [77%nat]
      (Some (minutes_after Driver.digit_atoi Driver.stress_options 0 * 60000000))
  /\ Driver.get_test_number Driver.stress_name = 77.
Proof.
  apply (stress_option_runs_stress_alone Driver.passing Driver.digit_atoi
           Driver.stress_options).
  - vm_compute. reflexivity.
  - reflexivity.
  - vm_compute. reflexivity.
Defined.
